(** * Job tracker: status store, dashboard pipeline and daily digest

    A shallow embedding of the TypeScript sources
      - [src/app/lib/jobStatus.ts]      (status map and status history),
      - [src/app/dashboard/page.tsx]    (filter and sort pipeline),
      - [src/app/digest/page.tsx]       (top-ten digest),
    with the properties the specification states about them.

    Conventions of the embedding.
      - A JS [number] that holds an integer is a [Z]: the numbers of the
        program (days, scores, salary figures) are integers within the
        range in which JS arithmetic on them is exact (below 2^53).
      - A JS string is a [string] (bytes); case folding is done on the ASCII
        letters.
      - A JS object used as a dictionary is a [gmap string _] of its own
        properties; a missing property ([undefined]) is [None].  Job ids are
        not names of members of [Object.prototype].
      - [localStorage] is passed explicitly; a function that writes to it
        returns the new storage.  The text under a key is either what the
        program wrote there (the serialisation of a value of the key's
        type) or text that does not parse.
      - The clock ([new Date()]) is an argument. *)

From Stdlib Require Import ZArith Lia Ascii String DecimalString DecimalNat.
From Stdlib Require Import DecimalPos DecimalZ.
From stdpp Require Import base option list sorting gmap strings pretty.

Local Open Scope Z_scope.

(** ** The JavaScript primitives the sources use *)

Module JS.

(** Text kept under a [localStorage] key, as [JSON.parse] sees it: either
    the serialisation of a value ([JSON.stringify v]) or text on which the
    parser throws. *)
Inductive text (A : Type) : Type :=
| Stringified (v : A)
| Malformed (raw : string).
Arguments Stringified {A} v.
Arguments Malformed {A} raw.

Definition JSON_stringify {A} (v : A) : text A := Stringified v.

(** [None] stands for the [SyntaxError] thrown by [JSON.parse]. *)
Definition JSON_parse {A} (t : text A) : option A :=
  match t with
  | Stringified v => Some v
  | Malformed _ => None
  end.

(** Truthiness of a string: only the empty string is falsy. *)
Definition truthy (s : string) : bool :=
  match s with
  | EmptyString => false
  | String _ _ => true
  end.

Definition truthy_text {A} (t : text A) : bool :=
  match t with
  | Stringified _ => true
  | Malformed raw => truthy raw
  end.

(** [String.prototype.toLowerCase], on the letters A-Z. *)
Definition lower_ascii (c : ascii) : ascii :=
  let n := nat_of_ascii c in
  if ((65 <=? n) && (n <=? 90))%nat then ascii_of_nat (n + 32) else c.

Fixpoint toLowerCase (s : string) : string :=
  match s with
  | EmptyString => EmptyString
  | String c s' => String (lower_ascii c) (toLowerCase s')
  end.

(** [s.includes(needle)]. *)
Fixpoint includes (s needle : string) : bool :=
  String.prefix needle s ||
  match s with
  | EmptyString => false
  | String _ s' => includes s' needle
  end.

(** The regular expression [/\d+/]: the first maximal run of the digits
    0-9, if there is one. *)
Definition is_digit (c : ascii) : bool :=
  let n := nat_of_ascii c in ((48 <=? n) && (n <=? 57))%nat.

Fixpoint digit_run (s : string) : string :=
  match s with
  | EmptyString => EmptyString
  | String c s' => if is_digit c then String c (digit_run s') else EmptyString
  end.

Fixpoint match_digits (s : string) : option string :=
  match s with
  | EmptyString => None
  | String c s' =>
      if is_digit c then Some (String c (digit_run s')) else match_digits s'
  end.

(** [parseInt] on a run of decimal digits. *)
Fixpoint parseInt_from (acc : Z) (s : string) : Z :=
  match s with
  | EmptyString => acc
  | String c s' =>
      if is_digit c
      then parseInt_from (10 * acc + (Z.of_nat (nat_of_ascii c) - 48)) s'
      else acc
  end.

Definition parseInt (s : string) : Z := parseInt_from 0 s.

(** [Array.prototype.sort(cmp)].  The language requires the sort to be
    stable and to place [a] before [b] when [cmp a b < 0]; for the
    comparators of this program (differences of integer keys) that fixes
    the result.  It is written here as a stable insertion sort. *)
Fixpoint sort_insert {A} (cmp : A → A → Z) (x : A) (l : list A) : list A :=
  match l with
  | [] => [x]
  | y :: l' => if cmp x y <=? 0 then x :: y :: l' else y :: sort_insert cmp x l'
  end.

Definition Array_sort {A} (cmp : A → A → Z) (l : list A) : list A :=
  foldr (sort_insert cmp) [] l.

(** [arr.slice(0, n)]. *)
Definition slice0 {A} (n : nat) (l : list A) : list A := take n l.

End JS.

(** ** [src/app/components/jobs/JobCard.tsx]: the status type *)

Inductive JobStatus : Type := NotApplied | Applied | Rejected | Selected.

Global Instance JobStatus_eq_dec : EqDecision JobStatus.
Proof. solve_decision. Defined.

(** ** [src/app/lib/jobStatus.ts] *)

Module JobStatusLib.
Import JS.

Record StatusHistoryEntry : Type := {
  jobId : string;
  jobTitle : string;
  company : string;
  status : JobStatus;
  changedAt : string
}.

(** The two entries of [localStorage] this module owns, named by their
    keys [STATUS_KEY] and [STATUS_HISTORY_KEY]; [None] is what [getItem]
    returns as [null]. *)
Record LocalStorage : Type := {
  jobTrackerStatus : option (text (gmap string JobStatus));
  jobTrackerStatusHistory : option (text (list StatusHistoryEntry))
}.

(** [typeof window === "undefined"] holds on the server, where there is no
    storage: [None].  In the browser the window carries the storage. *)
Definition Window : Type := option LocalStorage.

Definition loadJobStatuses (window : Window) : gmap string JobStatus :=
  match window with
  | None => ∅
  | Some localStorage =>
      match jobTrackerStatus localStorage with
      | Some saved =>
          if truthy_text saved then
            match JSON_parse saved with
            | Some statuses => statuses
            | None => ∅
            end
          else ∅
      | None => ∅
      end
  end.

Definition getJobStatus (window : Window) (jobId : string) : JobStatus :=
  let statuses := loadJobStatuses window in
  match statuses !! jobId with
  | Some s => s
  | None => NotApplied
  end.

Definition loadStatusHistory (window : Window) : list StatusHistoryEntry :=
  match window with
  | None => []
  | Some localStorage =>
      match jobTrackerStatusHistory localStorage with
      | Some saved =>
          if truthy_text saved then
            match JSON_parse saved with
            | Some history => history
            | None => []
            end
          else []
      | None => []
      end
  end.

(** [now] is [new Date().toISOString()] at the time of the call. *)
Definition recordStatusHistory (window : Window)
    (jobId jobTitle company : string) (status : JobStatus) (now : string)
    : Window :=
  match window with
  | None => None
  | Some localStorage =>
      let history := loadStatusHistory window in
      let newEntry :=
        {| jobId := jobId; jobTitle := jobTitle; company := company;
           status := status; changedAt := now |} in
      let updatedHistory := slice0 20 (newEntry :: history) in
      Some {| jobTrackerStatus := jobTrackerStatus localStorage;
              jobTrackerStatusHistory := Some (JSON_stringify updatedHistory) |}
  end.

Definition saveJobStatus (window : Window)
    (jobId : string) (status : JobStatus) (jobTitle company : string)
    (now : string) : Window :=
  match window with
  | None => None
  | Some localStorage =>
      let statuses := loadJobStatuses window in
      if decide (statuses !! jobId = Some status) then window
      else
        let statuses := <[jobId := status]> statuses in
        let window :=
          Some {| jobTrackerStatus := Some (JSON_stringify statuses);
                  jobTrackerStatusHistory :=
                    jobTrackerStatusHistory localStorage |} in
        if decide (status ≠ NotApplied)
        then recordStatusHistory window jobId jobTitle company status now
        else window
  end.

Definition clearJobStatuses (window : Window) : Window :=
  match window with
  | None => None
  | Some localStorage =>
      Some {| jobTrackerStatus := None;
              jobTrackerStatusHistory :=
                jobTrackerStatusHistory localStorage |}
  end.

(** A sequence of calls of [saveJobStatus], as the pages make them. *)
Record StatusChange : Type := {
  on_job : string;
  to_status : JobStatus;
  with_title : string;
  with_company : string;
  at_time : string
}.

Definition apply_change (window : Window) (c : StatusChange) : Window :=
  saveJobStatus window (on_job c) (to_status c) (with_title c)
                (with_company c) (at_time c).

Definition run (window : Window) (cs : list StatusChange) : Window :=
  foldl apply_change window cs.

(** The entry a change leaves in the history. *)
Definition entry_of (c : StatusChange) : StatusHistoryEntry :=
  {| jobId := on_job c; jobTitle := with_title c; company := with_company c;
     status := to_status c; changedAt := at_time c |}.

(** Every change of the sequence, at the moment it is made, differs from
    the stored status of its job and is not the default status. *)
Fixpoint all_effective (window : Window) (cs : list StatusChange) : bool :=
  match cs with
  | [] => true
  | c :: cs' =>
      bool_decide (loadJobStatuses window !! on_job c ≠ Some (to_status c))
      && bool_decide (to_status c ≠ NotApplied)
      && all_effective (apply_change window c) cs'
  end.

End JobStatusLib.

(** ** [app/data/jobs.ts]: the job record *)

Module Data.

(** Modelled from the spec: the [Job] interface and the static [jobs] table
    live in [app/data/jobs.ts], which is not among the sources.  The fields
    are those of the spec's data model, typed as the pages use them:
    [experience] is compared with the string held by the experience filter,
    [postedDaysAgo] is subtracted in the comparators.  The [jobs] table
    itself is an argument of the functions that read it. *)
Record Job : Type := {
  id : string;
  title : string;
  company : string;
  location : string;
  mode : string;
  experience : string;
  salaryRange : string;
  skills : list string;
  source : string;
  postedDaysAgo : Z;
  applyUrl : string
}.

End Data.

(** ** [app/lib/matchScore.ts]: preferences and the scorer *)

Module MatchScoreLib.
Import JS.

(** Modelled from the spec: the [Preferences] interface of
    [app/lib/matchScore.ts], which is not among the sources; the fields are
    those of the spec's data model. *)
Record Preferences : Type := {
  roleKeywords : gset string;
  locations : gset string;
  skills : gset string;
  minMatchScore : Z
}.

(** Modelled from the spec: the table of scoring weights.  The spec leaves
    the weights open ("an internal policy choice", "a policy constant
    table") and asks only that more matches never lower the score, so a
    weight is a natural number and the table is an argument of the scorer. *)
Record Weights : Type := {
  perKeyword : nat;
  perSkill : nat;
  forLocation : nat
}.

(** The role keywords found in the job title, case-insensitively. *)
Definition matchedKeywords (job : Data.Job) (preferences : Preferences)
    : gset string :=
  filter (λ kw, includes (toLowerCase (Data.title job)) (toLowerCase kw) = true)
         (roleKeywords preferences).

(** The preferred skills the job lists (set intersection). *)
Definition matchedSkills (job : Data.Job) (preferences : Preferences)
    : gset string :=
  skills preferences ∩ list_to_set (Data.skills job).

Definition locationMatch (job : Data.Job) (preferences : Preferences) : bool :=
  bool_decide (Data.location job ∈ locations preferences).

Definition weightedMatches (w : Weights) (job : Data.Job)
    (preferences : Preferences) : Z :=
  Z.of_nat (perKeyword w) * Z.of_nat (size (matchedKeywords job preferences))
  + Z.of_nat (perSkill w) * Z.of_nat (size (matchedSkills job preferences))
  + (if locationMatch job preferences then Z.of_nat (forLocation w) else 0).

(** Modelled from the spec: [calculateMatchScore] of
    [app/lib/matchScore.ts], which is not among the sources.  Spec 4.1: the
    score grows with the number of role keywords found in the title, of
    matched skills and with a location match, "saturating at 100 and
    floored at 0". *)
Definition calculateMatchScore (w : Weights) (job : Data.Job)
    (preferences : Preferences) : Z :=
  Z.max 0 (Z.min 100 (weightedMatches w job preferences)).

End MatchScoreLib.

(** ** [src/app/dashboard/page.tsx]: the filter and sort pipeline *)

Module Dashboard.
Import JS Data.

Record ScoredJob : Type := {
  job :> Job;
  matchScore : option Z
}.

(** The controls of the filter bar.  An unset control holds the empty
    string; the status control holds a status or nothing ("All Statuses"). *)
Record Filters : Type := {
  keyword : string;
  location : string;
  mode : string;
  experience : string;
  source : string;
  status : option JobStatus;
  sort : string
}.

(** [handleFilterChange("sort", value)]: the filters with another sort key. *)
Definition withSort (value : string) (prev : Filters) : Filters :=
  {| keyword := keyword prev; location := location prev; mode := mode prev;
     experience := experience prev; source := source prev;
     status := status prev; sort := value |}.

(** [a ?? 0] on an optional score. *)
Definition orZero (score : option Z) : Z := default 0 score.

Definition minMatchScore (preferences : option MatchScoreLib.Preferences) : Z :=
  match preferences with
  | Some p => MatchScoreLib.minMatchScore p
  | None => 40
  end.

Section Pipeline.

(** The static job table and the scorer are imported by the page. *)
Variable jobs : list Job.
Variable calculateMatchScore : Job → MatchScoreLib.Preferences → Z.

Definition jobsWithScores (preferences : option MatchScoreLib.Preferences)
    : list ScoredJob :=
  match preferences with
  | None => map (λ job, {| job := job; matchScore := None |}) jobs
  | Some p =>
      map (λ job, {| job := job;
                     matchScore := Some (calculateMatchScore job p) |}) jobs
  end.

(** The tests of the seven filters of [filteredJobs]. *)
Definition aboveThreshold (preferences : option MatchScoreLib.Preferences)
    (job : ScoredJob) : bool :=
  minMatchScore preferences <=? orZero (matchScore job).

Definition hasKeyword (filters : Filters) (job : ScoredJob) : bool :=
  let keyword := toLowerCase (keyword filters) in
  includes (toLowerCase (Data.title job)) keyword
  || includes (toLowerCase (Data.company job)) keyword.

Definition atLocation (filters : Filters) (job : ScoredJob) : bool :=
  bool_decide (Data.location job = location filters).

Definition inMode (filters : Filters) (job : ScoredJob) : bool :=
  bool_decide (Data.mode job = mode filters).

Definition withExperience (filters : Filters) (job : ScoredJob) : bool :=
  bool_decide (Data.experience job = experience filters).

Definition fromSource (filters : Filters) (job : ScoredJob) : bool :=
  bool_decide (Data.source job = source filters).

Definition inStatus (jobStatuses : gmap string JobStatus)
    (wanted : JobStatus) (job : ScoredJob) : bool :=
  let jobStatus := default NotApplied (jobStatuses !! Data.id job) in
  bool_decide (jobStatus = wanted).

(** The seven stages: each filters only when its control is set. *)
Definition scoreStage (showOnlyMatches : bool)
    (preferences : option MatchScoreLib.Preferences)
    (result : list ScoredJob) : list ScoredJob :=
  if showOnlyMatches && bool_decide (is_Some preferences)
  then List.filter (aboveThreshold preferences) result
  else result.

Definition keywordStage (filters : Filters) (result : list ScoredJob)
    : list ScoredJob :=
  if truthy (keyword filters)
  then List.filter (hasKeyword filters) result else result.

Definition locationStage (filters : Filters) (result : list ScoredJob)
    : list ScoredJob :=
  if truthy (location filters)
  then List.filter (atLocation filters) result else result.

Definition modeStage (filters : Filters) (result : list ScoredJob)
    : list ScoredJob :=
  if truthy (mode filters)
  then List.filter (inMode filters) result else result.

Definition experienceStage (filters : Filters) (result : list ScoredJob)
    : list ScoredJob :=
  if truthy (experience filters)
  then List.filter (withExperience filters) result else result.

Definition sourceStage (filters : Filters) (result : list ScoredJob)
    : list ScoredJob :=
  if truthy (source filters)
  then List.filter (fromSource filters) result else result.

Definition statusStage (jobStatuses : gmap string JobStatus)
    (filters : Filters) (result : list ScoredJob) : list ScoredJob :=
  match status filters with
  | Some wanted => List.filter (inStatus jobStatuses wanted) result
  | None => result
  end.

(** Lines 119-163 of the page: the stages in the order of the code. *)
Definition applyFilters (showOnlyMatches : bool)
    (preferences : option MatchScoreLib.Preferences)
    (jobStatuses : gmap string JobStatus) (filters : Filters)
    (jobsWithScores : list ScoredJob) : list ScoredJob :=
  let result := jobsWithScores in
  let result := scoreStage showOnlyMatches preferences result in
  let result := keywordStage filters result in
  let result := locationStage filters result in
  let result := modeStage filters result in
  let result := experienceStage filters result in
  let result := sourceStage filters result in
  let result := statusStage jobStatuses filters result in
  result.

Definition getFirstNum (s : string) : Z :=
  match match_digits s with
  | Some m => parseInt m
  | None => 0
  end.

(** The comparators of the [switch (filters.sort)]. *)
Definition byLatest (a b : ScoredJob) : Z := postedDaysAgo a - postedDaysAgo b.
Definition byOldest (a b : ScoredJob) : Z := postedDaysAgo b - postedDaysAgo a.
Definition byMatchScore (a b : ScoredJob) : Z :=
  orZero (matchScore b) - orZero (matchScore a).
Definition bySalaryHigh (a b : ScoredJob) : Z :=
  getFirstNum (salaryRange b) - getFirstNum (salaryRange a).
Definition bySalaryLow (a b : ScoredJob) : Z :=
  getFirstNum (salaryRange a) - getFirstNum (salaryRange b).

(** Lines 166-195: the sort chosen by [filters.sort]; any other value leaves
    the order as it is. *)
Definition sortJobs (sort : string) (result : list ScoredJob) : list ScoredJob :=
  if String.eqb sort "latest" then Array_sort byLatest result
  else if String.eqb sort "oldest" then Array_sort byOldest result
  else if String.eqb sort "match-score" then Array_sort byMatchScore result
  else if String.eqb sort "salary-high" then Array_sort bySalaryHigh result
  else if String.eqb sort "salary-low" then Array_sort bySalaryLow result
  else result.

Definition filteredJobs (showOnlyMatches : bool)
    (preferences : option MatchScoreLib.Preferences)
    (jobStatuses : gmap string JobStatus) (filters : Filters)
    : list ScoredJob :=
  sortJobs (sort filters)
    (applyFilters showOnlyMatches preferences jobStatuses filters
       (jobsWithScores preferences)).

End Pipeline.

(** The stages as a list, to apply them in another order. *)
Definition stages (showOnlyMatches : bool)
    (preferences : option MatchScoreLib.Preferences)
    (jobStatuses : gmap string JobStatus) (filters : Filters)
    : list (list ScoredJob → list ScoredJob) :=
  [ scoreStage showOnlyMatches preferences;
    keywordStage filters;
    locationStage filters;
    modeStage filters;
    experienceStage filters;
    sourceStage filters;
    statusStage jobStatuses filters ].

Definition applyStages (order : list (list ScoredJob → list ScoredJob))
    (jobsWithScores : list ScoredJob) : list ScoredJob :=
  foldl (λ result stage, stage result) jobsWithScores order.

(** A job passes every filter whose control is set. *)
Definition passesActiveFilters (showOnlyMatches : bool)
    (preferences : option MatchScoreLib.Preferences)
    (jobStatuses : gmap string JobStatus) (filters : Filters)
    (job : ScoredJob) : bool :=
  (if showOnlyMatches && bool_decide (is_Some preferences)
   then aboveThreshold preferences job else true)
  && (if truthy (keyword filters) then hasKeyword filters job else true)
  && (if truthy (location filters) then atLocation filters job else true)
  && (if truthy (mode filters) then inMode filters job else true)
  && (if truthy (experience filters) then withExperience filters job else true)
  && (if truthy (source filters) then fromSource filters job else true)
  && (match status filters with
      | Some wanted => inStatus jobStatuses wanted job
      | None => true
      end).

(** The orders the sort keys ask for. *)
Definition newerFirst : relation ScoredJob :=
  λ a b, postedDaysAgo a ≤ postedDaysAgo b.

Definition higherSalaryFirst : relation ScoredJob :=
  λ a b, getFirstNum (salaryRange b) ≤ getFirstNum (salaryRange a).

(** The characters of a string. *)
Fixpoint chars (s : string) : list ascii :=
  match s with
  | EmptyString => []
  | String c s' => c :: chars s'
  end.


End Dashboard.

(** ** [src/app/digest/page.tsx]: the daily digest *)

Module Digest.
Import JS Data.

(** What the page reads off a [Date]: the local calendar fields (the month
    counted from 0) and the ISO timestamp. *)
Record Date : Type := {
  getFullYear : Z;
  getMonth : Z;
  getDate : Z;
  toISOString : string
}.

Record DigestJob : Type := {
  job :> Job;
  matchScore : Z
}.

Record DigestData : Type := {
  date : string;
  jobs : list DigestJob;
  generatedAt : string
}.

(** [String(n)] for an integer. *)
Definition String_of (n : Z) : string :=
  NilZero.string_of_int (Z.to_int n).

(** [s.padStart(n, "0")]. *)
Definition padStart0 (n : nat) (s : string) : string :=
  String.concat "" (replicate (n - String.length s) "0"%string) +:+ s.

(** [s.split("T")[0]]: the text before the first [T]. *)
Fixpoint beforeT (s : string) : string :=
  match s with
  | EmptyString => EmptyString
  | String c s' => if Ascii.eqb c "T" then EmptyString else String c (beforeT s')
  end.

Definition getTodayKey (today : Date) : string :=
  "jobTrackerDigest_" +:+ String_of (getFullYear today)
  +:+ "-" +:+ padStart0 2 (String_of (getMonth today + 1))
  +:+ "-" +:+ padStart0 2 (String_of (getDate today)).

(** The comparator of [generateDigest]: score descending, then
    [postedDaysAgo] ascending. *)
Definition digestOrder (a b : DigestJob) : Z :=
  if decide (matchScore b ≠ matchScore a)
  then matchScore b - matchScore a
  else postedDaysAgo a - postedDaysAgo b.

Section Generate.

(** The static job table and the scorer are imported by the page. *)
Variable jobs : list Job.
Variable calculateMatchScore : Job → MatchScoreLib.Preferences → Z.

Definition jobsWithScores (preferences : option MatchScoreLib.Preferences)
    : list DigestJob :=
  map (λ job,
         {| job := job;
            matchScore := match preferences with
                          | Some p => calculateMatchScore job p
                          | None => 0
                          end |}) jobs.

Definition generateDigest (preferences : option MatchScoreLib.Preferences)
    (today : Date) : DigestData :=
  let jobsWithScores := jobsWithScores preferences in
  let sortedJobs := Array_sort digestOrder jobsWithScores in
  let topJobs := slice0 10 sortedJobs in
  {| date := beforeT (toISOString today);
     Digest.jobs := topJobs;
     generatedAt := toISOString today |}.

(** The state the handler works on: the digest entries of [localStorage]
    (one per day key) and the React state of the page. *)
Record Page : Type := {
  localStorage : gmap string (text DigestData);
  digest : option DigestData;
  isGenerating : bool
}.

(** [handleGenerateDigest], once its timer has fired.  The handler reads the
    clock twice: [today] inside [generateDigest], [keyDay] inside
    [getTodayKey]. *)
Definition handleGenerateDigest
    (preferences : option MatchScoreLib.Preferences)
    (today keyDay : Date) (page : Page) : Page :=
  let newDigest := generateDigest preferences today in
  let todayKey := getTodayKey keyDay in
  {| localStorage := <[todayKey := JSON_stringify newDigest]> (localStorage page);
     digest := Some newDigest;
     isGenerating := false |}.

End Generate.

(** Two clock readings fall on the same calendar day. *)
Definition sameDay (d1 d2 : Date) : Prop :=
  getFullYear d1 = getFullYear d2 ∧ getMonth d1 = getMonth d2
  ∧ getDate d1 = getDate d2.

(** The order the digest is kept in: higher score first, and among equal
    scores the more recent posting first. *)
Definition ranksBefore (a b : DigestJob) : Prop :=
  matchScore b < matchScore a
  ∨ (matchScore a = matchScore b ∧ postedDaysAgo a ≤ postedDaysAgo b).

End Digest.

(** ** Saved jobs: [src/app/dashboard/page.tsx] and [src/app/saved/page.tsx] *)

Module Saved.
Import JS.

(** [handleSaveJob]: the update it hands to [setSavedJobIds] (the same code
    in both pages). *)
Definition handleSaveJob (jobId : string) (prev : list string) : list string :=
  if bool_decide (jobId ∈ prev)
  then List.filter (λ id, negb (String.eqb id jobId)) prev
  else prev ++ [jobId].

(** [savedJobs] of the saved page. *)
Definition savedJobs (jobs : list Data.Job) (savedJobIds : list string)
    : list Data.Job :=
  List.filter (λ job, bool_decide (Data.id job ∈ savedJobIds)) jobs.

(** The mount effect of both pages, as far as the saved ids go: [saved] is
    [localStorage.getItem(SAVED_JOBS_KEY)], the result is the state after
    the effect. *)
Definition loadSavedJobIds (saved : option (text (list string)))
    (savedJobIds : list string) : list string :=
  match saved with
  | Some saved =>
      if truthy_text saved then
        match JSON_parse saved with
        | Some ids => ids
        | None => []
        end
      else savedJobIds
  | None => savedJobIds
  end.

End Saved.

(** ** Changing a status from a card: [JobCard.tsx] and the two pages *)

Module StatusUI.
Import JS JobStatusLib.

(** The text of a status, as the union type spells it. *)
Definition statusText (s : JobStatus) : string :=
  match s with
  | NotApplied => "Not Applied"
  | Applied => "Applied"
  | Rejected => "Rejected"
  | Selected => "Selected"
  end.

Record Toast : Type := {
  id : string;
  message : string
}.

(** [showToast]: [stamp] is [Date.now().toString()]. *)
Definition showToast (message stamp : string) (prev : list Toast) : list Toast :=
  prev ++ [{| id := stamp; message := message |}].


(** What a page keeps: the browser storage and its React state. *)
Record Page : Type := {
  window : Window;
  jobStatuses : gmap string JobStatus;
  toasts : list Toast
}.

(** [handleStatusChange] of the dashboard and of the saved page.  [now] is
    the clock read by [recordStatusHistory], [stamp] the one read by
    [showToast]. *)
Definition handleStatusChange (jobs : list Data.Job) (jobId : string)
    (newStatus : JobStatus) (now stamp : string) (page : Page) : Page :=
  match List.find (λ j, String.eqb (Data.id j) jobId) jobs with
  | Some job =>
      let window :=
        saveJobStatus (window page) jobId newStatus (Data.title job)
                      (Data.company job) now in
      {| window := window;
         jobStatuses := loadJobStatuses window;
         toasts := showToast ("Status updated: " +:+ statusText newStatus)
                             stamp (toasts page) |}
  | None => page
  end.

(** The [status] prop the pages give a card:
    [jobStatuses[job.id] || "Not Applied"]. *)
Definition displayedStatus (jobStatuses : gmap string JobStatus)
    (job : Data.Job) : JobStatus :=
  default NotApplied (jobStatuses !! Data.id job).

(** [handleStatusSelect] of a card showing [status]: the page state after the
    click and the card's [showStatusDropdown]. *)
Definition handleStatusSelect {S : Type}
    (onStatusChange : option (string → JobStatus → S → S))
    (job : Data.Job) (status newStatus : JobStatus) (page : S) : S * bool :=
  (match onStatusChange with
   | Some onStatusChange =>
       if decide (newStatus ≠ status)
       then onStatusChange (Data.id job) newStatus page
       else page
   | None => page
   end, false).

End StatusUI.

(** ** The test checklist: [src/app/jt/07-test/page.tsx] and the ship lock *)

Module Checklist.
Import JS.

(** The ids of [testItems], in the order of the page. *)
Definition testItemIds : list string :=
  [ "preferences-persist"; "match-score"; "show-matches"; "save-persist";
    "apply-tab"; "status-persist"; "status-filter"; "digest-generate";
    "digest-persist"; "no-console-errors" ]%string.

Definition totalCount : nat := length testItemIds.

(** [TOTAL_TESTS] of the ship lock page. *)
Definition TOTAL_TESTS : nat := 10.

(** [handleToggle]: [{...prev, [id]: !prev[id]}]; a missing entry is
    [undefined], whose negation is [true]. *)
Definition handleToggle (id : string) (prev : gmap string bool)
    : gmap string bool :=
  <[id := negb (default false (prev !! id))]> prev.

Definition handleReset : gmap string bool := ∅.

(** [Object.values(checkedItems)]; only the number of [true] values is read
    off it, so the order of the values plays no part. *)
Definition Object_values (checkedItems : gmap string bool) : list bool :=
  (map_to_list checkedItems).*2.

Definition passedCount (checkedItems : gmap string bool) : nat :=
  length (List.filter (λ b : bool, b) (Object_values checkedItems)).

Definition allPassed (checkedItems : gmap string bool) : bool :=
  bool_decide (passedCount checkedItems = totalCount).

(** The checkbox of an item: [checkedItems[item.id] || false]. *)
Definition isChecked (checkedItems : gmap string bool) (id : string) : bool :=
  default false (checkedItems !! id).

(** The mount effect of the checklist page. *)
Definition loadChecklist (saved : option (text (gmap string bool)))
    (checkedItems : gmap string bool) : gmap string bool :=
  match saved with
  | Some saved =>
      if truthy_text saved then
        match JSON_parse saved with
        | Some items => items
        | None => ∅
        end
      else checkedItems
  | None => checkedItems
  end.

(** The save effect of the checklist page: what it stores. *)
Definition persistChecklist (checkedItems : gmap string bool)
    : option (text (gmap string bool)) :=
  Some (JSON_stringify checkedItems).

(** The mount effect of the ship lock page: the [passedCount] it sets,
    starting from [useState(0)]. *)
Definition shipPassedCount (saved : option (text (gmap string bool))) : nat :=
  match saved with
  | Some saved =>
      if truthy_text saved then
        match JSON_parse saved with
        | Some checkedItems => passedCount checkedItems
        | None => 0%nat
        end
      else 0%nat
  | None => 0%nat
  end.

Definition allTestsPassed (saved : option (text (gmap string bool))) : bool :=
  bool_decide (shipPassedCount saved = TOTAL_TESTS).

(** A session on the checklist page: toggles of items, from a given state. *)
Definition toggleAll (ids : list string) (checkedItems : gmap string bool)
    : gmap string bool :=
  foldl (λ items id, handleToggle id items) checkedItems ids.

End Checklist.

(** ** The digest page: loading, matches and the text rendering *)

Module DigestPage.
Import JS Digest.

(** The mount effect, as far as the digest goes (lines 135-144). *)
Definition loadExistingDigest (keyDay : Date) (page : Page) : Page :=
  let todayKey := getTodayKey keyDay in
  match localStorage page !! todayKey with
  | Some existingDigest =>
      if truthy_text existingDigest then
        match JSON_parse existingDigest with
        | Some d =>
            {| localStorage := localStorage page; digest := Some d;
               isGenerating := isGenerating page |}
        | None =>
            {| localStorage := localStorage page; digest := None;
               isGenerating := isGenerating page |}
        end
      else page
  | None => page
  end.

Definition hasMatches (digest : option DigestData) : bool :=
  match digest with
  | None => false
  | Some digest => existsb (λ job, 0 <? matchScore job) (jobs digest)
  end.

(** The line feed. *)
Definition LF : string := String (ascii_of_nat 10) EmptyString.

(** The lines [formatDigestAsText] pushes for the job at [index]. *)
Definition jobLines (index : nat) (job : DigestJob) : list string :=
  [ String_of (Z.of_nat index + 1) +:+ ". " +:+ Data.title job;
    "   Company: " +:+ Data.company job;
    "   Location: " +:+ Data.location job;
    "   Experience: " +:+ Data.experience job +:+ " years";
    "   Match Score: " +:+ String_of (matchScore job) +:+ "%";
    "   Apply: " +:+ Data.applyUrl job;
    "" ]%string.

(** [lines] of [formatDigestAsText], before the join; [displayDate] is
    [getTodayDisplayDate()]. *)
Definition formatDigestLines (displayDate : string) (digest : DigestData)
    : list string :=
  let lines :=
    [ "Top 10 Jobs For You — 9AM Digest";
      "Date: " +:+ displayDate;
      "";
      "---";
      "" ]%string in
  let lines :=
    foldl (λ lines '(index, job), lines ++ jobLines index job)
          lines (imap (λ index job, (index, job)) (jobs digest)) in
  let lines := lines ++ ["---"%string] in
  let lines := lines ++ [""%string] in
  let lines :=
    lines ++ ["This digest was generated based on your preferences."%string] in
  lines.

Definition formatDigestAsText (displayDate : string) (digest : DigestData)
    : string :=
  String.concat LF (formatDigestLines displayDate digest).

(** A calendar day as [Date] reports it: month 0-11, day 1-31. *)
Definition validDay (d : Date) : Prop :=
  0 ≤ getMonth d ≤ 11 ∧ 1 ≤ getDate d ≤ 31.

End DigestPage.

(** ** Sequences of status changes *)

Module StatusRuns.
Import JobStatusLib.

(** The status given by the last change of the sequence that concerns the
    job, if there is one. *)
Definition lastWrite (jobId : string) (cs : list StatusChange)
    : option JobStatus :=
  to_status <$> last (List.filter (λ c, String.eqb (on_job c) jobId) cs).

End StatusRuns.

(** ** Recent status updates: [getRecentStatusUpdates] of [jobStatus.ts] *)

Module RecentUpdates.
Import JS JobStatusLib.

Section Dates.

(** The platform's [Date]: a time is its number of milliseconds, an invalid
    date ([NaN]) is [None].  [Date_parse s] is [new Date(s)];
    [Date_minusDays t days] is the time after
    [setDate(getDate() - days)] on the date of time [t]. *)
Variable Date_parse : string → option Z.
Variable Date_minusDays : Z → Z → Z.

(** [new Date(entry.changedAt) >= cutoff]; a comparison with an invalid date
    is false. *)
Definition notBefore (cutoff : Z) (entry : StatusHistoryEntry) : bool :=
  match Date_parse (changedAt entry) with
  | Some t => cutoff <=? t
  | None => false
  end.

(** [now] is the time read by [new Date()]. *)
Definition getRecentStatusUpdates (window : Window) (now : Z) (days : Z)
    : list StatusHistoryEntry :=
  let history := loadStatusHistory window in
  let cutoff := Date_minusDays now days in
  List.filter (notBefore cutoff) history.

End Dates.

(** The default of the parameter [days]. *)
Definition defaultDays : Z := 7.

End RecentUpdates.

(** ** Sample data *)

Module Samples.
Import JS.

Definition freshStorage : JobStatusLib.LocalStorage :=
  {| JobStatusLib.jobTrackerStatus := None;
     JobStatusLib.jobTrackerStatusHistory := None |}.

Definition firstEntry : JobStatusLib.StatusHistoryEntry :=
  {| JobStatusLib.jobId := "job-1";
     JobStatusLib.jobTitle := "Backend Engineer";
     JobStatusLib.company := "Acme";
     JobStatusLib.status := Applied;
     JobStatusLib.changedAt := "2026-01-05T09:00:00.000Z" |}.

Definition trackedStorage : JobStatusLib.LocalStorage :=
  {| JobStatusLib.jobTrackerStatus :=
       Some (JSON_stringify ({[ "job-1"%string := Applied ]} : gmap string JobStatus));
     JobStatusLib.jobTrackerStatusHistory :=
       Some (JSON_stringify [firstEntry]) |}.

Definition corruptStorage : JobStatusLib.LocalStorage :=
  {| JobStatusLib.jobTrackerStatus := Some (Malformed "{not json");
     JobStatusLib.jobTrackerStatusHistory := Some (Malformed "[oops") |}.

(** Twenty-one changes, each of another job, one minute apart. *)
Definition changeNo (n : nat) : JobStatusLib.StatusChange :=
  {| JobStatusLib.on_job := "job-" +:+ pretty n;
     JobStatusLib.to_status := Applied;
     JobStatusLib.with_title := "Engineer " +:+ pretty n;
     JobStatusLib.with_company := "Acme";
     JobStatusLib.at_time := "2026-01-05T09:" +:+ pretty (10 + n)%nat +:+ ":00.000Z" |}.

Definition changes21 : list JobStatusLib.StatusChange := changeNo <$> seq 0 21.

Definition backendJob : Data.Job :=
  {| Data.id := "job-1"; Data.title := "Backend Engineer";
     Data.company := "Acme"; Data.location := "Pune"; Data.mode := "Remote";
     Data.experience := "1-3"; Data.salaryRange := "₹10-18 LPA";
     Data.skills := ["Go"; "SQL"]%string; Data.source := "LinkedIn";
     Data.postedDaysAgo := 3; Data.applyUrl := "https://example.com/1" |}.

Definition frontendJob : Data.Job :=
  {| Data.id := "job-2"; Data.title := "Frontend Developer";
     Data.company := "Globex"; Data.location := "Bengaluru";
     Data.mode := "Hybrid"; Data.experience := "0-1";
     Data.salaryRange := "₹15-25 LPA";
     Data.skills := ["React"]%string; Data.source := "Naukri";
     Data.postedDaysAgo := 1; Data.applyUrl := "https://example.com/2" |}.

Definition analystJob : Data.Job :=
  {| Data.id := "job-3"; Data.title := "Data Analyst";
     Data.company := "Initech"; Data.location := "Pune"; Data.mode := "Onsite";
     Data.experience := "Fresher"; Data.salaryRange := "Not disclosed";
     Data.skills := ["SQL"]%string; Data.source := "Indeed";
     Data.postedDaysAgo := 7; Data.applyUrl := "https://example.com/3" |}.

Definition jobs : list Data.Job := [backendJob; frontendJob; analystJob].

Definition weights : MatchScoreLib.Weights :=
  {| MatchScoreLib.perKeyword := 25; MatchScoreLib.perSkill := 15;
     MatchScoreLib.forLocation := 15 |}.

(** The preferences of the spec's example. *)
Definition backendPreferences : MatchScoreLib.Preferences :=
  {| MatchScoreLib.roleKeywords := {[ "backend"%string ]};
     MatchScoreLib.locations := ∅;
     MatchScoreLib.skills := {[ "Go"%string ]};
     MatchScoreLib.minMatchScore := 40 |}.


Definition puneFilters : Dashboard.Filters :=
  {| Dashboard.keyword := "ENGINEER"; Dashboard.location := "Pune";
     Dashboard.mode := ""; Dashboard.experience := ""; Dashboard.source := "";
     Dashboard.status := Some Applied; Dashboard.sort := "salary-high" |}.

Definition noFilters : Dashboard.Filters :=
  {| Dashboard.keyword := ""; Dashboard.location := "";
     Dashboard.mode := ""; Dashboard.experience := ""; Dashboard.source := "";
     Dashboard.status := None; Dashboard.sort := "salary-high" |}.

Definition statuses : gmap string JobStatus := {[ "job-1"%string := Applied ]}.

Definition morning : Digest.Date :=
  {| Digest.getFullYear := 2026; Digest.getMonth := 0; Digest.getDate := 5;
     Digest.toISOString := "2026-01-05T09:00:00.000Z" |}.

Definition evening : Digest.Date :=
  {| Digest.getFullYear := 2026; Digest.getMonth := 0; Digest.getDate := 5;
     Digest.toISOString := "2026-01-05T18:30:00.000Z" |}.

Definition emptyPage : Digest.Page :=
  {| Digest.localStorage := ∅; Digest.digest := None;
     Digest.isGenerating := true |}.


Definition syncedPage : StatusUI.Page :=
  {| StatusUI.window := Some trackedStorage;
     StatusUI.jobStatuses := {[ "job-1"%string := Applied ]};
     StatusUI.toasts := [] |}.

End Samples.

(** * Properties *)

(** ** [Array_sort] orders its input *)

Module SortFacts.
Import JS.

Section Insertion.
Context {A : Type} (cmp : A → A → Z).

Lemma sort_insert_Permutation (x : A) (l : list A) :
  sort_insert cmp x l ≡ₚ x :: l.
Proof.
  induction l as [|y l IH]; simpl; [done|].
  destruct (cmp x y <=? 0); [done|].
  rewrite IH. apply Permutation_swap.
Qed.

Lemma Array_sort_Permutation (l : list A) : Array_sort cmp l ≡ₚ l.
Proof.
  induction l as [|x l IH]; simpl; [done|].
  unfold Array_sort in *. simpl.
  rewrite sort_insert_Permutation. by rewrite IH.
Qed.

Lemma Array_sort_length (l : list A) : length (Array_sort cmp l) = length l.
Proof. apply Permutation_length, Array_sort_Permutation. Qed.

Lemma Array_sort_elem_of (x : A) (l : list A) : x ∈ Array_sort cmp l ↔ x ∈ l.
Proof. by rewrite Array_sort_Permutation. Qed.

(** The comparator decides a total preorder [R]. *)
Context (R : relation A).
Hypothesis cmp_R : ∀ a b, cmp a b ≤ 0 ↔ R a b.
Hypothesis R_total : ∀ a b, R a b ∨ R b a.
Hypothesis R_trans : ∀ a b c, R a b → R b c → R a c.

Lemma sort_insert_sorted (x : A) (l : list A) :
  StronglySorted R l → StronglySorted R (sort_insert cmp x l).
Proof.
  induction 1 as [|y l Hl IH Hy]; simpl.
  { repeat constructor. }
  destruct (Z.leb_spec (cmp x y) 0) as [Hle|Hgt].
  - apply cmp_R in Hle. constructor; [by constructor|].
    constructor; [done|].
    eapply Forall_impl; [exact Hy|]. intros z Hz. by eapply R_trans.
  - constructor; [done|].
    rewrite sort_insert_Permutation. constructor; [|done].
    destruct (R_total x y) as [Hxy|Hyx]; [|done].
    apply cmp_R in Hxy. lia.
Qed.

Lemma Array_sort_sorted (l : list A) : StronglySorted R (Array_sort cmp l).
Proof.
  induction l as [|x l IH]; [constructor|].
  unfold Array_sort in *. simpl. by apply sort_insert_sorted.
Qed.

End Insertion.


(** Two elements of a list whose keys are pairwise distinct are equal as
    soon as their keys are. *)
Lemma NoDup_fmap_eq {A B} (f : A → B) (l : list A) x y :
  NoDup (f <$> l) → x ∈ l → y ∈ l → f x = f y → x = y.
Proof.
  induction l as [|z l IH]; intros Hnd Hx Hy Hxy.
  { by apply elem_of_nil in Hx. }
  rewrite fmap_cons in Hnd. apply NoDup_cons in Hnd as [Hz Hnd].
  apply elem_of_cons in Hx as [->|Hx]; apply elem_of_cons in Hy as [->|Hy].
  - done.
  - exfalso. apply Hz. rewrite Hxy. by apply list_elem_of_fmap_2.
  - exfalso. apply Hz. rewrite <- Hxy. by apply list_elem_of_fmap_2.
  - by apply IH.
Qed.

End SortFacts.

(** ** The status tracker *)

Module JobStatusFacts.
Import JS JobStatusLib.

Lemma loadJobStatuses_stringified statuses history :
  loadJobStatuses
    (Some {| jobTrackerStatus := Some (JSON_stringify statuses);
             jobTrackerStatusHistory := history |}) = statuses.
Proof. reflexivity. Qed.

Lemma loadStatusHistory_stringified statuses history :
  loadStatusHistory
    (Some {| jobTrackerStatus := statuses;
             jobTrackerStatusHistory := Some (JSON_stringify history) |})
  = history.
Proof. reflexivity. Qed.

(** What [saveJobStatus] does in each of its three cases. *)
Lemma saveJobStatus_unchanged ls jobId status jobTitle company now :
  loadJobStatuses (Some ls) !! jobId = Some status →
  saveJobStatus (Some ls) jobId status jobTitle company now = Some ls.
Proof. intros H. unfold saveJobStatus. by rewrite decide_True. Qed.

Lemma saveJobStatus_default ls jobId jobTitle company now :
  loadJobStatuses (Some ls) !! jobId ≠ Some NotApplied →
  saveJobStatus (Some ls) jobId NotApplied jobTitle company now =
  Some {| jobTrackerStatus :=
            Some (JSON_stringify
                    (<[jobId := NotApplied]> (loadJobStatuses (Some ls))));
          jobTrackerStatusHistory := jobTrackerStatusHistory ls |}.
Proof.
  intros H. unfold saveJobStatus. rewrite decide_False by done.
  by rewrite decide_False by auto.
Qed.

Lemma saveJobStatus_changed ls jobId status jobTitle company now :
  loadJobStatuses (Some ls) !! jobId ≠ Some status →
  status ≠ NotApplied →
  saveJobStatus (Some ls) jobId status jobTitle company now =
  Some {| jobTrackerStatus :=
            Some (JSON_stringify
                    (<[jobId := status]> (loadJobStatuses (Some ls))));
          jobTrackerStatusHistory :=
            Some (JSON_stringify
                    (take 20
                       ({| jobId := jobId; jobTitle := jobTitle;
                           company := company; status := status;
                           changedAt := now |}
                        :: loadStatusHistory (Some ls)))) |}.
Proof.
  intros H Hd. unfold saveJobStatus. rewrite decide_False by done.
  by rewrite decide_True by done.
Qed.

(** A call never lengthens the history beyond 20, whatever its case. *)
Lemma saveJobStatus_history_bound window jobId status jobTitle company now :
  (length (loadStatusHistory window) ≤ 20)%nat →
  (length (loadStatusHistory
             (saveJobStatus window jobId status jobTitle company now)) ≤ 20)%nat.
Proof.
  intros Hlen. destruct window as [ls|]; [|done].
  destruct (decide (loadJobStatuses (Some ls) !! jobId = Some status)) as [He|Hne].
  { by rewrite saveJobStatus_unchanged. }
  destruct (decide (status = NotApplied)) as [->|Hd].
  { by rewrite saveJobStatus_default. }
  rewrite saveJobStatus_changed by done.
  rewrite loadStatusHistory_stringified, length_take. lia.
Qed.

Lemma run_history_bound cs : ∀ window,
  (length (loadStatusHistory window) ≤ 20)%nat →
  (length (loadStatusHistory (run window cs)) ≤ 20)%nat.
Proof.
  induction cs as [|c cs IH]; intros window Hlen; [done|].
  unfold run in *. simpl. apply IH. by apply saveJobStatus_history_bound.
Qed.

Lemma take_app_take {A} (l k : list A) (m n : nat) :
  (m ≤ n)%nat → take m (l ++ take n k) = take m (l ++ k).
Proof.
  revert m. induction l as [|x l IH]; intros m Hmn; simpl.
  - rewrite take_take. f_equal. lia.
  - destruct m as [|m]; [done|]. simpl. f_equal. apply IH. lia.
Qed.

(** A run of effective changes stacks their entries on the history, the
    latest on top, and keeps the first 20. *)
Lemma run_effective_history cs : ∀ ls,
  cs ≠ [] →
  all_effective (Some ls) cs = true →
  loadStatusHistory (run (Some ls) cs) =
  take 20 (reverse (entry_of <$> cs) ++ loadStatusHistory (Some ls)).
Proof.
  induction cs as [|c cs IH]; intros ls Hne Heff; [done|].
  cbn [all_effective] in Heff. apply andb_prop in Heff as [Heff Hrest].
  apply andb_prop in Heff as [Hdiff Hd].
  apply bool_decide_eq_true in Hdiff, Hd.
  assert (apply_change (Some ls) c =
          Some {| jobTrackerStatus :=
                    Some (JSON_stringify
                            (<[on_job c := to_status c]>
                               (loadJobStatuses (Some ls))));
                  jobTrackerStatusHistory :=
                    Some (JSON_stringify
                            (take 20 (entry_of c :: loadStatusHistory (Some ls))))
               |}) as Hstep.
  { unfold apply_change. by rewrite saveJobStatus_changed. }
  unfold run in *. cbn [foldl]. rewrite Hstep in Hrest |- *.
  destruct cs as [|c' cs].
  - cbn [foldl]. by rewrite loadStatusHistory_stringified.
  - rewrite IH by done.
    rewrite loadStatusHistory_stringified, take_app_take by lia.
    rewrite (fmap_cons _ c), (reverse_cons _ (entry_of c)).
    by rewrite <- (assoc_L (++)).
Qed.

(** C2.  For every job id (in the browser, where there is a storage):
    [saveJobStatus] with the status already stored
    for the job leaves the storage as it is (no write, no history entry);
    with a status that differs from the stored one and is not "Not Applied"
    it stores the new status for the job and puts exactly one new entry on
    top of the history, which is then cut to its first 20 entries. *)
Theorem saveJobStatus_noop_or_recorded ls jobId status jobTitle company now :
  let window := Some ls in
  let window' := saveJobStatus window jobId status jobTitle company now in
  (loadJobStatuses window !! jobId = Some status → window' = window)
  ∧ (loadJobStatuses window !! jobId ≠ Some status → status ≠ NotApplied →
       loadJobStatuses window' = <[jobId := status]> (loadJobStatuses window)
       ∧ getJobStatus window' jobId = status
       ∧ loadStatusHistory window' =
           take 20 ({| jobId := jobId; jobTitle := jobTitle; company := company;
                       status := status; changedAt := now |}
                    :: loadStatusHistory window)
       ∧ ((length (loadStatusHistory window) < 20)%nat →
            length (loadStatusHistory window') =
            S (length (loadStatusHistory window)))).
Proof.
  cbv zeta. split.
  - apply saveJobStatus_unchanged.
  - intros Hdiff Hd. rewrite saveJobStatus_changed by done.
    rewrite loadJobStatuses_stringified, loadStatusHistory_stringified.
    split_and!; [done| |done|].
    + unfold getJobStatus. rewrite loadJobStatuses_stringified.
      by rewrite lookup_insert_eq.
    + intros Hlt. rewrite length_take. cbn [length]. lia.
Qed.

Lemma saveJobStatus_noop_or_recorded_witness :
  saveJobStatus (Some Samples.trackedStorage) "job-1" Applied
                "Backend Engineer" "Acme" "2026-01-06T09:00:00.000Z"
  = Some Samples.trackedStorage
  ∧ length (loadStatusHistory
              (saveJobStatus (Some Samples.trackedStorage) "job-1" Rejected
                 "Backend Engineer" "Acme" "2026-01-06T09:00:00.000Z")) = 2%nat.
Proof.
  split.
  - apply (proj1 (saveJobStatus_noop_or_recorded Samples.trackedStorage
                    "job-1" Applied "Backend Engineer" "Acme"
                    "2026-01-06T09:00:00.000Z")).
    reflexivity.
  - apply (proj2 (saveJobStatus_noop_or_recorded Samples.trackedStorage
                    "job-1" Rejected "Backend Engineer" "Acme"
                    "2026-01-06T09:00:00.000Z")).
    + vm_compute. discriminate.
    + discriminate.
    + simpl. lia.
Defined.

(** C3.  The history never grows beyond 20 entries (a storage whose history
    has at most 20 entries, the empty one included, keeps that bound under
    any sequence of calls), and it is kept newest first: a run of changes,
    each different from the status stored at that moment and none of them
    "Not Applied", leaves the entries of the changes, the latest first, on
    top of the old history, cut to 20.  So after 21 such changes the history
    holds exactly the entries of the last 20 changes, the latest first; the
    entry of the first change and everything older are gone. *)
Theorem history_capped_newest_first ls cs :
  ((length (loadStatusHistory (Some ls)) ≤ 20)%nat →
   (length (loadStatusHistory (run (Some ls) cs)) ≤ 20)%nat)
  ∧ (all_effective (Some ls) cs = true → cs ≠ [] →
     loadStatusHistory (run (Some ls) cs) =
     take 20 (reverse (entry_of <$> cs) ++ loadStatusHistory (Some ls)))
  ∧ (all_effective (Some ls) cs = true → length cs = 21%nat →
     loadStatusHistory (run (Some ls) cs) = reverse (entry_of <$> drop 1 cs)
     ∧ length (loadStatusHistory (run (Some ls) cs)) = 20%nat).
Proof.
  split_and!; [apply run_history_bound| |].
  { intros Heff Hne. by apply run_effective_history. }
  intros Heff Hlen.
  assert (cs ≠ []) as Hne by (intros ->; discriminate).
  rewrite run_effective_history by done.
  rewrite take_app_le by (rewrite length_reverse, length_fmap; lia).
  rewrite take_reverse, length_fmap, Hlen. simpl.
  rewrite <- fmap_drop. split; [done|].
  rewrite length_reverse, length_fmap, length_drop. lia.
Qed.

Lemma history_capped_newest_first_witness :
  length (loadStatusHistory
            (run (Some Samples.freshStorage) Samples.changes21)) = 20%nat
  ∧ (length (loadStatusHistory
               (run (Some Samples.trackedStorage) Samples.changes21)) ≤ 20)%nat.
Proof.
  split.
  - apply (proj2 (proj2 (history_capped_newest_first Samples.freshStorage
                           Samples.changes21))); vm_compute; reflexivity.
  - apply (proj1 (history_capped_newest_first Samples.trackedStorage
                    Samples.changes21)). simpl. lia.
Defined.

(** C9.  The loaders tolerate malformed JSON: when the text stored for the
    status map does not parse, [loadJobStatuses] returns the empty map (and
    [getJobStatus] then answers "Not Applied" for every job); when the text
    stored for the history does not parse, [loadStatusHistory] returns the
    empty list; and [getJobStatus] answers "Not Applied" for every job id
    the loaded map has no entry for. *)
Theorem loaders_default_on_malformed ls :
  (∀ saved, jobTrackerStatus ls = Some saved → JSON_parse saved = None →
     loadJobStatuses (Some ls) = ∅
     ∧ ∀ jobId, getJobStatus (Some ls) jobId = NotApplied)
  ∧ (∀ saved, jobTrackerStatusHistory ls = Some saved →
       JSON_parse saved = None → loadStatusHistory (Some ls) = [])
  ∧ (∀ window jobId, loadJobStatuses window !! jobId = None →
       getJobStatus window jobId = NotApplied).
Proof.
  assert (∀ saved, jobTrackerStatus ls = Some saved → JSON_parse saved = None →
            loadJobStatuses (Some ls) = ∅) as Hmap.
  { intros saved Hs Hp. simpl. rewrite Hs, Hp. by destruct (truthy_text saved). }
  split_and!.
  - intros saved Hs Hp. split; [by eapply Hmap|].
    intros jobId. unfold getJobStatus. by rewrite (Hmap saved).
  - intros saved Hs Hp. simpl. rewrite Hs, Hp. by destruct (truthy_text saved).
  - intros window jobId Hnone. unfold getJobStatus. by rewrite Hnone.
Qed.

Lemma loaders_default_on_malformed_witness :
  loadJobStatuses (Some Samples.corruptStorage) = ∅
  ∧ loadStatusHistory (Some Samples.corruptStorage) = []
  ∧ getJobStatus (Some Samples.trackedStorage) "job-2" = NotApplied.
Proof.
  split_and!.
  - apply (proj1 (loaders_default_on_malformed Samples.corruptStorage)
             (Malformed "{not json")); reflexivity.
  - apply (proj1 (proj2 (loaders_default_on_malformed Samples.corruptStorage))
             (Malformed "[oops")); reflexivity.
  - apply (proj2 (proj2 (loaders_default_on_malformed Samples.trackedStorage))).
    reflexivity.
Defined.

(** C10.  [saveJobStatus] with "Not Applied" for a job id that has no stored
    entry does write: the stored map gains the explicit entry "Not Applied"
    for the job.  The history entry of the storage is left as it was, and
    [getJobStatus] gives the same answer for the job before and after. *)
Theorem saveJobStatus_default_on_absent ls jobId jobTitle company now :
  loadJobStatuses (Some ls) !! jobId = None →
  let window' := saveJobStatus (Some ls) jobId NotApplied jobTitle company now in
  window' =
    Some {| jobTrackerStatus :=
              Some (JSON_stringify
                      (<[jobId := NotApplied]> (loadJobStatuses (Some ls))));
            jobTrackerStatusHistory := jobTrackerStatusHistory ls |}
  ∧ loadJobStatuses window' !! jobId = Some NotApplied
  ∧ loadStatusHistory window' = loadStatusHistory (Some ls)
  ∧ getJobStatus window' jobId = getJobStatus (Some ls) jobId.
Proof.
  intros Hnone. cbv zeta.
  rewrite saveJobStatus_default by (rewrite Hnone; discriminate).
  split_and!; [done| | |].
  - rewrite loadJobStatuses_stringified. by rewrite lookup_insert_eq.
  - done.
  - unfold getJobStatus. rewrite loadJobStatuses_stringified.
    by rewrite lookup_insert_eq, Hnone.
Qed.

Lemma saveJobStatus_default_on_absent_witness :
  loadJobStatuses
    (saveJobStatus (Some Samples.trackedStorage) "job-2" NotApplied
       "Data Analyst" "Globex" "2026-01-06T09:00:00.000Z") !! "job-2"
  = Some NotApplied.
Proof.
  apply (saveJobStatus_default_on_absent Samples.trackedStorage "job-2"
           "Data Analyst" "Globex" "2026-01-06T09:00:00.000Z").
  reflexivity.
Defined.

End JobStatusFacts.

(** ** The dashboard pipeline *)

Module DashboardFacts.
Import JS Data Dashboard SortFacts.

Lemma filter_swap {A} (p q : A → bool) (l : list A) :
  List.filter p (List.filter q l) = List.filter q (List.filter p l).
Proof.
  induction l as [|x l IH]; [done|]. simpl.
  destruct (q x) eqn:Hq, (p x) eqn:Hp; simpl; rewrite ?Hq, ?Hp, IH; done.
Qed.

Lemma filter_both {A} (p q : A → bool) (l : list A) :
  List.filter q (List.filter p l) = List.filter (λ x, p x && q x) l.
Proof.
  induction l as [|x l IH]; [done|]. simpl.
  destruct (p x) eqn:Hp; simpl; [|done].
  destruct (q x); by rewrite IH.
Qed.

Lemma filter_all {A} (l : list A) : List.filter (λ _, true) l = l.
Proof. induction l as [|x l IH]; [done|]. simpl. by rewrite IH. Qed.

Lemma filter_sublist {A} (p : A → bool) (l : list A) :
  List.filter p l `sublist_of` l.
Proof.
  induction l as [|x l IH]; simpl; [constructor|].
  destruct (p x); by constructor.
Qed.

Lemma elem_of_filter_bool {A} (p : A → bool) (l : list A) x :
  x ∈ List.filter p l ↔ x ∈ l ∧ p x = true.
Proof. rewrite !list_elem_of_In. apply filter_In. Qed.

Lemma stage_if {A} (c : bool) (p : A → bool) (l : list A) :
  (if c then List.filter p l else l) =
  List.filter (λ x, if c then p x else true) l.
Proof. destruct c; [done|]. by rewrite filter_all. Qed.

Lemma stage_match {A B} (o : option B) (p : B → A → bool) (l : list A) :
  match o with Some b => List.filter (p b) l | None => l end =
  List.filter (λ x, match o with Some b => p b x | None => true end) l.
Proof. destruct o; [done|]. by rewrite filter_all. Qed.

(** Stages that are filters commute, so any order gives the same list. *)
Lemma applyStages_permutation (order order' : list (list ScoredJob → list ScoredJob)) :
  Forall (λ stage, ∃ p, ∀ l, stage l = List.filter p l) order →
  order ≡ₚ order' →
  ∀ l, applyStages order l = applyStages order' l.
Proof.
  intros Hf Hp. induction Hp as [|f fs fs' Hp IH|f g fs|fs1 fs2 fs3 H12 IH12 H23 IH23];
    intros l.
  - done.
  - apply Forall_cons in Hf as [_ Hf]. unfold applyStages in *. simpl. by apply IH.
  - apply Forall_cons in Hf as [[q Hq] Hf].
    apply Forall_cons in Hf as [[p Hp] _].
    unfold applyStages. simpl. by rewrite Hp, Hq, Hp, Hq, filter_swap.
  - rewrite IH12 by done. apply IH23. by rewrite <- H12.
Qed.

Section Stages.
Context (showOnlyMatches : bool)
        (preferences : option MatchScoreLib.Preferences)
        (jobStatuses : gmap string JobStatus) (filters : Filters).

Lemma stages_are_filters :
  Forall (λ stage, ∃ p, ∀ l, stage l = List.filter p l)
         (stages showOnlyMatches preferences jobStatuses filters).
Proof.
  unfold stages. repeat apply Forall_cons_2; [..|apply Forall_nil_2].
  - unfold scoreStage.
    destruct (showOnlyMatches && bool_decide (is_Some preferences));
      eauto using filter_all.
  - unfold keywordStage. destruct (truthy (keyword filters)); eauto using filter_all.
  - unfold locationStage. destruct (truthy (location filters)); eauto using filter_all.
  - unfold modeStage. destruct (truthy (mode filters)); eauto using filter_all.
  - unfold experienceStage.
    destruct (truthy (experience filters)); eauto using filter_all.
  - unfold sourceStage. destruct (truthy (source filters)); eauto using filter_all.
  - unfold statusStage. destruct (status filters); eauto using filter_all.
Qed.

(** The pipeline keeps exactly the jobs that pass every active filter. *)
Lemma applyFilters_filter (l : list ScoredJob) :
  applyFilters showOnlyMatches preferences jobStatuses filters l =
  List.filter (passesActiveFilters showOnlyMatches preferences jobStatuses filters) l.
Proof.
  unfold applyFilters, passesActiveFilters, scoreStage, keywordStage,
    locationStage, modeStage, experienceStage, sourceStage, statusStage.
  cbv zeta. rewrite !stage_if, stage_match, !filter_both.
  apply filter_ext. intros x. by rewrite !andb_assoc.
Qed.

End Stages.

Lemma sortJobs_Permutation (sort : string) (l : list ScoredJob) :
  sortJobs sort l ≡ₚ l.
Proof.
  unfold sortJobs.
  repeat (case String.eqb; [apply Array_sort_Permutation|]). done.
Qed.

Lemma elem_of_sortJobs (sort : string) (l : list ScoredJob) x :
  x ∈ sortJobs sort l ↔ x ∈ l.
Proof. by rewrite sortJobs_Permutation. Qed.

(** C5.  For every job list and every setting of the filters: running the
    seven filter stages in any order gives the list the page computes, and a
    job is in the result exactly when it is in the input and passes every
    filter whose control is set, all at once.  The same holds for the jobs
    the page finally shows, after the sort. *)
Theorem filters_commute_and_conjoin showOnlyMatches preferences jobStatuses
    filters (l : list ScoredJob) order :
  order ≡ₚ stages showOnlyMatches preferences jobStatuses filters →
  applyStages order l =
    applyFilters showOnlyMatches preferences jobStatuses filters l
  ∧ (∀ job, job ∈ applyStages order l ↔
       job ∈ l ∧
       passesActiveFilters showOnlyMatches preferences jobStatuses filters job
       = true)
  ∧ (∀ jobs calculateMatchScore job,
       job ∈ filteredJobs jobs calculateMatchScore showOnlyMatches preferences
               jobStatuses filters ↔
       job ∈ jobsWithScores jobs calculateMatchScore preferences ∧
       passesActiveFilters showOnlyMatches preferences jobStatuses filters job
       = true).
Proof.
  intros Hperm.
  assert (applyStages order l =
          applyFilters showOnlyMatches preferences jobStatuses filters l) as Heq.
  { symmetry. apply (applyStages_permutation _ _ (stages_are_filters _ _ _ _)).
    by symmetry. }
  split_and!; [done| |].
  - intros job. by rewrite Heq, applyFilters_filter, elem_of_filter_bool.
  - intros jobs score job. unfold filteredJobs.
    by rewrite elem_of_sortJobs, applyFilters_filter, elem_of_filter_bool.
Qed.

Lemma filters_commute_and_conjoin_witness :
  applyStages (reverse (stages true (Some Samples.backendPreferences)
                          Samples.statuses Samples.puneFilters))
    (jobsWithScores Samples.jobs
       (MatchScoreLib.calculateMatchScore Samples.weights)
       (Some Samples.backendPreferences))
  = applyFilters true (Some Samples.backendPreferences) Samples.statuses
      Samples.puneFilters
      (jobsWithScores Samples.jobs
         (MatchScoreLib.calculateMatchScore Samples.weights)
         (Some Samples.backendPreferences)).
Proof.
  apply (filters_commute_and_conjoin true (Some Samples.backendPreferences)
           Samples.statuses Samples.puneFilters).
  apply reverse_Permutation.
Defined.

Global Instance newerFirst_trans : Transitive newerFirst.
Proof. intros a b c. unfold newerFirst. lia. Qed.

Lemma byLatest_sorted (l : list ScoredJob) :
  StronglySorted newerFirst (Array_sort byLatest l).
Proof.
  apply Array_sort_sorted; unfold byLatest, newerFirst; intros; lia.
Qed.

Lemma byOldest_sorted (l : list ScoredJob) :
  StronglySorted (flip newerFirst) (Array_sort byOldest l).
Proof.
  apply Array_sort_sorted; unfold byOldest, flip, newerFirst; intros; lia.
Qed.

Lemma latest_reverse_oldest (l : list ScoredJob) :
  NoDup ((λ j : ScoredJob, postedDaysAgo j) <$> l) →
  sortJobs "latest" l = reverse (sortJobs "oldest" l).
Proof.
  intros Hnd.
  change (sortJobs "latest" l) with (Array_sort byLatest l).
  change (sortJobs "oldest" l) with (Array_sort byOldest l).
  apply (StronglySorted_unique_strong newerFirst).
  - intros x y Hx Hy Hxy Hyx.
    rewrite Array_sort_elem_of in Hx.
    rewrite elem_of_reverse, Array_sort_elem_of in Hy.
    apply (NoDup_fmap_eq (λ j : ScoredJob, postedDaysAgo j) l); [done..|].
    unfold newerFirst in *. lia.
  - apply byLatest_sorted.
  - apply Sorted_StronglySorted; [apply _|].
    apply (Sorted_reverse (flip newerFirst)).
    apply StronglySorted_Sorted, byOldest_sorted.
  - by rewrite reverse_Permutation, !Array_sort_Permutation.
Qed.

Lemma jobsWithScores_days jobs calculateMatchScore preferences :
  (λ j : ScoredJob, postedDaysAgo j)
    <$> jobsWithScores jobs calculateMatchScore preferences
  = postedDaysAgo <$> jobs.
Proof.
  unfold jobsWithScores. destruct preferences;
    rewrite <- list_fmap_compose; by apply list_fmap_ext.
Qed.

(** C6.  For every job list whose [postedDaysAgo] values are pairwise
    distinct, the list the page shows under the sort key "latest" is exactly
    the reverse of the list it shows under "oldest", whatever the other
    filters are; and the same holds for the sort step alone on any list of
    scored jobs with pairwise distinct [postedDaysAgo]. *)
Theorem latest_is_reverse_of_oldest jobs calculateMatchScore showOnlyMatches
    preferences jobStatuses filters :
  NoDup (postedDaysAgo <$> jobs) →
  filteredJobs jobs calculateMatchScore showOnlyMatches preferences jobStatuses
    (withSort "latest" filters)
  = reverse (filteredJobs jobs calculateMatchScore showOnlyMatches preferences
               jobStatuses (withSort "oldest" filters))
  ∧ (∀ l : list ScoredJob,
       NoDup ((λ j : ScoredJob, postedDaysAgo j) <$> l) →
       sortJobs "latest" l = reverse (sortJobs "oldest" l)).
Proof.
  intros Hnd. split; [|apply latest_reverse_oldest].
  unfold filteredJobs.
  change (sort (withSort "latest" filters)) with "latest"%string.
  change (sort (withSort "oldest" filters)) with "oldest"%string.
  change (applyFilters showOnlyMatches preferences jobStatuses
            (withSort "oldest" filters))
    with (applyFilters showOnlyMatches preferences jobStatuses
            (withSort "latest" filters)).
  apply latest_reverse_oldest.
  rewrite applyFilters_filter.
  eapply sublist_NoDup; [|apply fmap_sublist, filter_sublist].
  by rewrite jobsWithScores_days.
Qed.

Lemma latest_is_reverse_of_oldest_witness :
  filteredJobs Samples.jobs (MatchScoreLib.calculateMatchScore Samples.weights)
    false None Samples.statuses (withSort "latest" Samples.noFilters)
  = reverse
      (filteredJobs Samples.jobs
         (MatchScoreLib.calculateMatchScore Samples.weights)
         false None Samples.statuses (withSort "oldest" Samples.noFilters)).
Proof.
  refine (proj1 (latest_is_reverse_of_oldest Samples.jobs _ _ _ _ _ _)).
  apply (bool_decide_unpack _). vm_compute. exact I.
Defined.

(** *** The salary key *)





(** [parseInt] reads its digits in base ten. *)
Lemma parseInt_from_snoc (ds : string) (c : ascii) : ∀ acc,
  Forall (λ c, is_digit c = true) (chars ds) →
  is_digit c = true →
  parseInt_from acc (ds +:+ String c EmptyString) =
  10 * parseInt_from acc ds + (Z.of_nat (nat_of_ascii c) - 48).
Proof.
  induction ds as [|d ds IH]; intros acc Hds Hc; simpl.
  - by rewrite Hc.
  - apply Forall_cons in Hds as [Hd Hds]. rewrite Hd. by apply IH.
Qed.





Global Instance higherSalaryFirst_trans : Transitive higherSalaryFirst.
Proof. intros a b c. unfold higherSalaryFirst. lia. Qed.





End DashboardFacts.

(** ** The daily digest *)

Module DigestFacts.
Import JS Data Digest SortFacts.

Lemma digestOrder_ranksBefore (a b : DigestJob) :
  digestOrder a b ≤ 0 ↔ ranksBefore a b.
Proof.
  unfold digestOrder, ranksBefore. case_decide; lia.
Qed.

Lemma ranksBefore_total (a b : DigestJob) : ranksBefore a b ∨ ranksBefore b a.
Proof. unfold ranksBefore. lia. Qed.

Lemma ranksBefore_trans (a b c : DigestJob) :
  ranksBefore a b → ranksBefore b c → ranksBefore a c.
Proof. unfold ranksBefore. lia. Qed.

Lemma digestOrder_sorted (l : list DigestJob) :
  StronglySorted ranksBefore (Array_sort digestOrder l).
Proof.
  apply Array_sort_sorted.
  - apply digestOrder_ranksBefore.
  - apply ranksBefore_total.
  - apply ranksBefore_trans.
Qed.

(** The key names the calendar day and nothing else of the clock. *)
Lemma getTodayKey_sameDay (d1 d2 : Date) :
  sameDay d1 d2 → getTodayKey d1 = getTodayKey d2.
Proof. intros (Hy & Hm & Hd). unfold getTodayKey. by rewrite Hy, Hm, Hd. Qed.

Section Generate.
Context (jobs : list Job)
        (calculateMatchScore : Job → MatchScoreLib.Preferences → Z).

Lemma generateDigest_jobs preferences today :
  Digest.jobs (generateDigest jobs calculateMatchScore preferences today) =
  take 10 (Array_sort digestOrder
             (jobsWithScores jobs calculateMatchScore preferences)).
Proof. reflexivity. Qed.

Lemma jobsWithScores_scores preferences :
  Forall (λ j : DigestJob,
            matchScore j = match preferences with
                           | Some p => calculateMatchScore j p
                           | None => 0
                           end)
         (jobsWithScores jobs calculateMatchScore preferences).
Proof. unfold jobsWithScores. apply Forall_fmap, Forall_true. done. Qed.

Lemma generateDigest_scores preferences today :
  Forall (λ j : DigestJob,
            matchScore j = match preferences with
                           | Some p => calculateMatchScore j p
                           | None => 0
                           end)
         (Digest.jobs (generateDigest jobs calculateMatchScore preferences today)).
Proof.
  rewrite generateDigest_jobs. apply Forall_take.
  rewrite Array_sort_Permutation. apply jobsWithScores_scores.
Qed.

End Generate.

(** C4.  For every job table, scorer, preferences and clock: the digest
    holds at most 10 jobs; without preferences every job in it has score 0;
    its jobs are in the order "higher score first, and among equal scores
    fewer [postedDaysAgo] first", and they are the first jobs of the whole
    table ranked that way.  Generating again on the same calendar day
    overwrites the record stored under that day's key: the storage after
    the second generation is the original storage with the second digest
    under the key, and it has the same keys as after the first. *)
Theorem digest_top_ten_per_day jobs calculateMatchScore preferences today :
  let d := generateDigest jobs calculateMatchScore preferences today in
  (length (Digest.jobs d) ≤ 10)%nat
  ∧ (preferences = None → Forall (λ j, matchScore j = 0) (Digest.jobs d))
  ∧ StronglySorted ranksBefore (Digest.jobs d)
  ∧ (∃ rest,
       Digest.jobs d ++ rest ≡ₚ jobsWithScores jobs calculateMatchScore preferences
       ∧ StronglySorted ranksBefore (Digest.jobs d ++ rest))
  ∧ (∀ preferences' today' keyDay keyDay' page,
       sameDay keyDay keyDay' →
       let page1 :=
         handleGenerateDigest jobs calculateMatchScore preferences
           today keyDay page in
       let page2 :=
         handleGenerateDigest jobs calculateMatchScore preferences'
           today' keyDay' page1 in
       let d' := generateDigest jobs calculateMatchScore preferences' today' in
       localStorage page2 =
         <[getTodayKey keyDay := JSON_stringify d']> (localStorage page)
       ∧ dom (localStorage page2) = dom (localStorage page1)
       ∧ localStorage page2 !! getTodayKey keyDay = Some (JSON_stringify d')
       ∧ digest page2 = Some d').
Proof.
  cbv zeta. split_and!.
  - rewrite generateDigest_jobs, length_take. lia.
  - intros ->. apply (generateDigest_scores jobs calculateMatchScore None).
  - rewrite generateDigest_jobs.
    eapply (StronglySorted_app_1_l _ _ (drop 10 _)).
    rewrite take_drop. apply digestOrder_sorted.
  - exists (drop 10 (Array_sort digestOrder
                       (jobsWithScores jobs calculateMatchScore preferences))).
    rewrite generateDigest_jobs, take_drop.
    split; [apply Array_sort_Permutation|apply digestOrder_sorted].
  - intros preferences' today' keyDay keyDay' page Hday.
    unfold handleGenerateDigest. simpl.
    rewrite <- (getTodayKey_sameDay _ _ Hday).
    rewrite insert_insert_eq. split_and!; [done| |by rewrite lookup_insert_eq|done].
    rewrite !dom_insert_L. set_solver.
Qed.

Lemma digest_top_ten_per_day_witness :
  Forall (λ j, matchScore j = 0)
    (Digest.jobs
       (generateDigest Samples.jobs
          (MatchScoreLib.calculateMatchScore Samples.weights) None
          Samples.morning))
  ∧ localStorage
      (handleGenerateDigest Samples.jobs
         (MatchScoreLib.calculateMatchScore Samples.weights)
         (Some Samples.backendPreferences) Samples.evening Samples.evening
         (handleGenerateDigest Samples.jobs
            (MatchScoreLib.calculateMatchScore Samples.weights)
            None Samples.morning Samples.morning Samples.emptyPage))
    = <[getTodayKey Samples.morning :=
          JSON_stringify
            (generateDigest Samples.jobs
               (MatchScoreLib.calculateMatchScore Samples.weights)
               (Some Samples.backendPreferences) Samples.evening)]>
        (localStorage Samples.emptyPage).
Proof.
  pose proof (digest_top_ten_per_day Samples.jobs
                (MatchScoreLib.calculateMatchScore Samples.weights) None
                Samples.morning) as (_ & Hzero & _ & _ & Hagain).
  split.
  - apply Hzero. reflexivity.
  - apply (Hagain (Some Samples.backendPreferences) Samples.evening
             Samples.morning Samples.evening Samples.emptyPage).
    repeat split.
Defined.

End DigestFacts.

(** ** The match score *)

Module MatchScoreFacts.
Import JS MatchScoreLib.

Lemma weightedMatches_nonneg w job preferences :
  0 ≤ weightedMatches w job preferences.
Proof. unfold weightedMatches. destruct (locationMatch _ _); nia. Qed.



(** C1.  For every job and every preferences value (and every table of
    weights) the score is an integer between 0 and 100, both included, and
    identical inputs give the same score. *)
Theorem score_in_range_and_deterministic w job preferences :
  0 ≤ calculateMatchScore w job preferences ≤ 100
  ∧ ∀ job' preferences',
      job' = job → preferences' = preferences →
      calculateMatchScore w job' preferences' =
      calculateMatchScore w job preferences.
Proof.
  split; [unfold calculateMatchScore; lia|].
  by intros job' preferences' -> ->.
Qed.

Lemma score_in_range_and_deterministic_witness :
  calculateMatchScore Samples.weights Samples.backendJob
    Samples.backendPreferences
  = calculateMatchScore Samples.weights Samples.backendJob
      Samples.backendPreferences.
Proof.
  apply (proj2 (score_in_range_and_deterministic Samples.weights
                  Samples.backendJob Samples.backendPreferences));
    reflexivity.
Defined.



End MatchScoreFacts.

(** ** Saved jobs *)

Module SavedFacts.
Import JS Saved.

Lemma elem_of_filter_ne (jobId x : string) (l : list string) :
  x ∈ List.filter (λ id, negb (String.eqb id jobId)) l ↔ x ∈ l ∧ x ≠ jobId.
Proof.
  rewrite !list_elem_of_In, filter_In, negb_true_iff, String.eqb_neq. done.
Qed.

Lemma filter_ne_absent (jobId : string) (l : list string) :
  jobId ∉ l → List.filter (λ id, negb (String.eqb id jobId)) l = l.
Proof.
  induction l as [|x l IH]; intros Hnot; [done|]. simpl.
  apply not_elem_of_cons in Hnot as [Hne Hnot].
  destruct (String.eqb_spec x jobId) as [->|_]; [done|].
  simpl. by rewrite IH.
Qed.

Lemma handleSaveJob_self (jobId : string) (prev : list string) :
  jobId ∈ handleSaveJob jobId prev ↔ jobId ∉ prev.
Proof.
  unfold handleSaveJob. case_bool_decide as Hin.
  - rewrite elem_of_filter_ne. intuition congruence.
  - rewrite elem_of_app, list_elem_of_singleton. intuition congruence.
Qed.

Lemma handleSaveJob_other (jobId other : string) (prev : list string) :
  other ≠ jobId → (other ∈ handleSaveJob jobId prev ↔ other ∈ prev).
Proof.
  intros Hne. unfold handleSaveJob. case_bool_decide as Hin.
  - rewrite elem_of_filter_ne. intuition congruence.
  - rewrite elem_of_app, list_elem_of_singleton. intuition congruence.
Qed.

Lemma elem_of_savedJobs (jobs : list Data.Job) (ids : list string) job :
  job ∈ savedJobs jobs ids ↔ job ∈ jobs ∧ Data.id job ∈ ids.
Proof.
  unfold savedJobs.
  rewrite !list_elem_of_In, filter_In, bool_decide_eq_true.
  by rewrite <- !list_elem_of_In.
Qed.

(** Saving or unsaving a job flips exactly that job: afterwards the job is
    saved if and only if it was not, and every other id is saved if and only
    if it was. *)
Theorem handleSaveJob_flips_one (jobId : string) (prev : list string) :
  (jobId ∈ handleSaveJob jobId prev ↔ jobId ∉ prev)
  ∧ (∀ other, other ≠ jobId →
       (other ∈ handleSaveJob jobId prev ↔ other ∈ prev)).
Proof.
  split; [apply handleSaveJob_self|].
  intros other Hne. by apply handleSaveJob_other.
Qed.

Lemma handleSaveJob_flips_one_witness :
  "job-1"%string ∈ handleSaveJob "job-2" ["job-1"; "job-2"]%string
  ↔ "job-1"%string ∈ ["job-1"; "job-2"]%string.
Proof.
  apply (proj2 (handleSaveJob_flips_one "job-2" ["job-1"; "job-2"]%string)).
  discriminate.
Defined.

(** The list of saved ids never gets a duplicate: a list without duplicates
    stays without duplicates, and unsaving removes every copy of the id. *)
Theorem handleSaveJob_NoDup (jobId : string) (prev : list string) :
  (NoDup prev → NoDup (handleSaveJob jobId prev))
  ∧ (jobId ∈ prev → jobId ∉ handleSaveJob jobId prev).
Proof.
  unfold handleSaveJob. split.
  - intros Hnd. case_bool_decide as Hin.
    + eapply sublist_NoDup; [done|].
      clear. induction prev as [|x l IH]; simpl; [constructor|].
      destruct (negb _); by constructor.
    + apply NoDup_app. split_and!; [done| |apply NoDup_singleton].
      intros x Hx ->%list_elem_of_singleton. done.
  - intros Hin. rewrite bool_decide_eq_true_2 by done.
    rewrite elem_of_filter_ne. intuition congruence.
Qed.

Lemma handleSaveJob_NoDup_witness :
  NoDup (handleSaveJob "job-2" ["job-1"; "job-2"; "job-3"]%string).
Proof.
  apply (proj1 (handleSaveJob_NoDup "job-2" ["job-1"; "job-2"; "job-3"]%string)).
  apply (bool_decide_unpack _). vm_compute. exact I.
Defined.

(** Saving a job that was not saved and unsaving it again gives back the
    very list; in general two clicks leave every id as it was. *)
Theorem handleSaveJob_twice (jobId : string) (prev : list string) :
  (jobId ∉ prev → handleSaveJob jobId (handleSaveJob jobId prev) = prev)
  ∧ (∀ x, x ∈ handleSaveJob jobId (handleSaveJob jobId prev) ↔ x ∈ prev).
Proof.
  split.
  - intros Hnot. unfold handleSaveJob at 2.
    rewrite bool_decide_eq_false_2 by done.
    unfold handleSaveJob.
    rewrite bool_decide_eq_true_2
      by (rewrite elem_of_app, list_elem_of_singleton; auto).
    rewrite List.filter_app. simpl. rewrite String.eqb_refl. simpl.
    by rewrite app_nil_r, filter_ne_absent.
  - intros x.
    destruct (decide (x = jobId)) as [->|Hne].
    + rewrite !handleSaveJob_self.
      destruct (decide (jobId ∈ prev)); intuition congruence.
    + by rewrite !handleSaveJob_other.
Qed.

Lemma handleSaveJob_twice_witness :
  handleSaveJob "job-9" (handleSaveJob "job-9" ["job-1"; "job-2"]%string)
  = ["job-1"; "job-2"]%string.
Proof.
  apply (proj1 (handleSaveJob_twice "job-9" ["job-1"; "job-2"]%string)).
  apply (bool_decide_unpack _). vm_compute. exact I.
Defined.

Lemma savedJobs_ext (jobs : list Data.Job) (ids ids' : list string) :
  (∀ x, x ∈ ids ↔ x ∈ ids') → savedJobs jobs ids = savedJobs jobs ids'.
Proof.
  intros Heq. unfold savedJobs. apply filter_ext. intros job.
  apply bool_decide_ext, Heq.
Qed.

(** The saved page lists the saved jobs in the order of the job table, not
    in the order they were saved: the list depends only on which ids are
    saved, it is a sublist of the table, and its jobs are exactly the jobs
    of the table whose id is saved. *)
Theorem savedJobs_table_order (jobs : list Data.Job) (ids ids' : list string) :
  savedJobs jobs ids `sublist_of` jobs
  ∧ (∀ job, job ∈ savedJobs jobs ids ↔ job ∈ jobs ∧ Data.id job ∈ ids)
  ∧ (ids ≡ₚ ids' → savedJobs jobs ids = savedJobs jobs ids').
Proof.
  split_and!.
  - unfold savedJobs. induction jobs as [|job jobs IH]; simpl; [constructor|].
    destruct (bool_decide _); by constructor.
  - intros job. apply elem_of_savedJobs.
  - intros Hp. apply savedJobs_ext. intros x. by rewrite Hp.
Qed.

Lemma savedJobs_table_order_witness :
  savedJobs Samples.jobs ["job-3"; "job-1"]%string
  = savedJobs Samples.jobs ["job-1"; "job-3"]%string.
Proof.
  apply (proj2 (proj2 (savedJobs_table_order Samples.jobs
                         ["job-3"; "job-1"]%string ["job-1"; "job-3"]%string))).
  apply Permutation_swap.
Defined.

(** Saving a job of the table puts it on the saved page and unsaving takes
    it off, while every other job stays on or off the page as it was. *)
Theorem handleSaveJob_savedJobs (jobs : list Data.Job) (jobId : string)
    (prev : list string) (job : Data.Job) :
  job ∈ jobs →
  (Data.id job = jobId →
     (job ∈ savedJobs jobs (handleSaveJob jobId prev) ↔
      job ∉ savedJobs jobs prev))
  ∧ (Data.id job ≠ jobId →
     (job ∈ savedJobs jobs (handleSaveJob jobId prev) ↔
      job ∈ savedJobs jobs prev)).
Proof.
  intros Hjob. split.
  - intros <-. rewrite !elem_of_savedJobs, handleSaveJob_self.
    intuition congruence.
  - intros Hne. by rewrite !elem_of_savedJobs, handleSaveJob_other.
Qed.

Lemma handleSaveJob_savedJobs_witness :
  Samples.frontendJob ∈
    savedJobs Samples.jobs (handleSaveJob "job-2" ["job-1"]%string)
  ↔ Samples.frontendJob ∉ savedJobs Samples.jobs ["job-1"]%string.
Proof.
  apply (proj1 (handleSaveJob_savedJobs Samples.jobs "job-2" ["job-1"]%string
                  Samples.frontendJob ltac:(set_solver))).
  reflexivity.
Defined.

End SavedFacts.

(** ** More on the status tracker *)

Module StatusMoreFacts.
Import JS JobStatusLib StatusRuns JobStatusFacts.

(** Every call of [saveJobStatus] in the browser leaves a well-formed map
    behind, whichever of its three cases applies. *)
Lemma saveJobStatus_cases ls jobId status jobTitle company now :
  ∃ ls',
    saveJobStatus (Some ls) jobId status jobTitle company now = Some ls'
    ∧ loadJobStatuses (Some ls') !! jobId = Some status
    ∧ (∀ other, other ≠ jobId →
         loadJobStatuses (Some ls') !! other = loadJobStatuses (Some ls) !! other)
    ∧ (loadStatusHistory (Some ls') = loadStatusHistory (Some ls)
       ∨ (status ≠ NotApplied
          ∧ loadStatusHistory (Some ls') =
            take 20 ({| jobId := jobId; jobTitle := jobTitle;
                        company := company; status := status;
                        changedAt := now |} :: loadStatusHistory (Some ls)))).
Proof.
  destruct (decide (loadJobStatuses (Some ls) !! jobId = Some status)) as [He|Hne].
  { exists ls. rewrite saveJobStatus_unchanged by done. auto. }
  destruct (decide (status = NotApplied)) as [->|Hd].
  - eexists. rewrite saveJobStatus_default by done. split; [done|].
    rewrite loadJobStatuses_stringified. split_and!.
    + by rewrite lookup_insert_eq.
    + intros other Hother. by rewrite lookup_insert_ne.
    + by left.
  - eexists. rewrite saveJobStatus_changed by done. split; [done|].
    rewrite loadJobStatuses_stringified, loadStatusHistory_stringified.
    split_and!.
    + by rewrite lookup_insert_eq.
    + intros other Hother. by rewrite lookup_insert_ne.
    + by right.
Qed.



Lemma run_Some cs : ∀ ls, ∃ ls', run (Some ls) cs = Some ls'.
Proof.
  induction cs as [|c cs IH]; intros ls; [by exists ls|].
  unfold run in *. cbn [foldl]. unfold apply_change at 2.
  destruct (saveJobStatus_cases ls (on_job c) (to_status c) (with_title c)
              (with_company c) (at_time c)) as (ls' & -> & _).
  apply IH.
Qed.

Lemma run_snoc window cs c :
  run window (cs ++ [c]) = apply_change (run window cs) c.
Proof. unfold run. by rewrite foldl_app. Qed.

(** Last write wins: after any sequence of [saveJobStatus] calls in the
    browser, the status of a job is the one given by the last call that
    concerned the job, and the status it had before if no call did. *)
Theorem run_last_write_wins ls cs jobId :
  getJobStatus (run (Some ls) cs) jobId =
  default (getJobStatus (Some ls) jobId) (lastWrite jobId cs).
Proof.
  induction cs as [|c cs IH] using rev_ind; [done|].
  rewrite run_snoc. destruct (run_Some cs ls) as [ls' Hrun].
  rewrite Hrun in IH |- *. unfold apply_change.
  pose proof (saveJobStatus_cases ls' (on_job c) (to_status c) (with_title c)
                (with_company c) (at_time c)) as (ls'' & -> & Hself & Hother & _).
  unfold lastWrite in *. rewrite List.filter_app. simpl.
  destruct (String.eqb_spec (on_job c) jobId) as [<-|Hne].
  - rewrite last_snoc. simpl. unfold getJobStatus. by rewrite Hself.
  - rewrite app_nil_r, <- IH. unfold getJobStatus.
    by rewrite Hother by done.
Qed.

(** The history holds only what was recorded: after any sequence of calls,
    each entry of the history was in the history before or is the entry of
    one of the calls, and it never is an entry for "Not Applied" unless
    such an entry was there before. *)
Theorem run_history_sound ls cs :
  Forall (λ e, e ∈ loadStatusHistory (Some ls)
               ∨ (e ∈ entry_of <$> cs ∧ status e ≠ NotApplied))
         (loadStatusHistory (run (Some ls) cs)).
Proof.
  induction cs as [|c cs IH] using rev_ind.
  { apply Forall_forall. auto. }
  rewrite run_snoc. destruct (run_Some cs ls) as [ls' Hrun].
  rewrite Hrun in IH |- *. unfold apply_change.
  pose proof (saveJobStatus_cases ls' (on_job c) (to_status c) (with_title c)
                (with_company c) (at_time c)) as (ls'' & -> & _ & _ & Hhist).
  assert (Forall (λ e, e ∈ loadStatusHistory (Some ls)
                       ∨ (e ∈ entry_of <$> cs ++ [c] ∧ status e ≠ NotApplied))
                 (loadStatusHistory (Some ls'))) as IH'.
  { eapply Forall_impl; [exact IH|]. intros e [He|[He Hs]]; [by left|right].
    split; [|done]. rewrite fmap_app. apply elem_of_app. by left. }
  destruct Hhist as [->|[Hd ->]]; [done|].
  apply Forall_take. constructor; [|done].
  right. split; [|done]. rewrite fmap_app. apply elem_of_app. right.
  apply list_elem_of_singleton. done.
Qed.

(** [clearJobStatuses] forgets every status (each job reads "Not Applied"
    again) and leaves the history as it is.  So the next [saveJobStatus]
    with any status other than "Not Applied" is recorded in the history,
    even when it is the status the job had before the clearing. *)
Theorem clearJobStatuses_resets ls :
  (∀ jobId, getJobStatus (clearJobStatuses (Some ls)) jobId = NotApplied)
  ∧ loadStatusHistory (clearJobStatuses (Some ls)) = loadStatusHistory (Some ls)
  ∧ (∀ jobId status jobTitle company now,
       status ≠ NotApplied →
       loadStatusHistory
         (saveJobStatus (clearJobStatuses (Some ls)) jobId status jobTitle
            company now)
       = take 20 ({| jobId := jobId; jobTitle := jobTitle; company := company;
                     status := status; changedAt := now |}
                  :: loadStatusHistory (Some ls))).
Proof.
  split_and!; [done..|].
  intros jobId status jobTitle company now Hd.
  cbn [clearJobStatuses]. by rewrite saveJobStatus_changed.
Qed.

Lemma clearJobStatuses_resets_witness :
  length (loadStatusHistory
            (saveJobStatus (clearJobStatuses (Some Samples.trackedStorage))
               "job-1" Applied "Backend Engineer" "Acme"
               "2026-01-07T09:00:00.000Z")) = 2%nat.
Proof.
  rewrite (proj2 (proj2 (clearJobStatuses_resets Samples.trackedStorage))
             "job-1" Applied "Backend Engineer" "Acme"
             "2026-01-07T09:00:00.000Z"); [reflexivity|discriminate].
Defined.

End StatusMoreFacts.

(** ** Changing a status from a card *)

Module StatusUIFacts.
Import JS JobStatusLib StatusUI JobStatusFacts.

Lemma find_by_id (jobs : list Data.Job) (job : Data.Job) :
  job ∈ jobs →
  ∃ first, List.find (λ j, String.eqb (Data.id j) (Data.id job)) jobs = Some first
           ∧ first ∈ jobs ∧ Data.id first = Data.id job.
Proof.
  induction jobs as [|j jobs IH]; intros Hin; [by apply elem_of_nil in Hin|].
  simpl. destruct (String.eqb_spec (Data.id j) (Data.id job)) as [Heq|Hne].
  - exists j. split_and!; [done|by left|done].
  - apply elem_of_cons in Hin as [->|Hin]; [done|].
    destruct (IH Hin) as (first & Hf & Hin' & Hid).
    exists first. split_and!; [done|by right|done].
Qed.

Lemma find_by_id_None (jobs : list Data.Job) (jobId : string) :
  (∀ job, job ∈ jobs → Data.id job ≠ jobId) →
  List.find (λ j, String.eqb (Data.id j) jobId) jobs = None.
Proof.
  induction jobs as [|j jobs IH]; intros Hall; [done|]. simpl.
  destruct (String.eqb_spec (Data.id j) jobId) as [Heq|Hne].
  - exfalso. by apply (Hall j); [left|].
  - apply IH. intros job Hin. apply Hall. by right.
Qed.

(** [handleStatusChange] ignores an id that no job of the table has: the
    storage, the statuses and the toasts stay as they are.  For an id of the
    table the page's statuses are, afterwards, exactly what the storage
    holds, the job reads the new status, and one toast is added. *)
Theorem handleStatusChange_known_or_ignored (jobs : list Data.Job)
    (jobId : string) (newStatus : JobStatus) (now stamp : string) ls
    (statuses : gmap string JobStatus) (shown : list Toast) :
  let page := {| window := Some ls; jobStatuses := statuses; toasts := shown |} in
  let page' := handleStatusChange jobs jobId newStatus now stamp page in
  ((∀ job, job ∈ jobs → Data.id job ≠ jobId) → page' = page)
  ∧ ((∃ job, job ∈ jobs ∧ Data.id job = jobId) →
       jobStatuses page' = loadJobStatuses (window page')
       ∧ jobStatuses page' !! jobId = Some newStatus
       ∧ getJobStatus (window page') jobId = newStatus
       ∧ length (toasts page') = S (length shown)).
Proof.
  cbv zeta. split.
  - intros Hnone. unfold handleStatusChange. by rewrite find_by_id_None.
  - intros (job & Hin & <-). unfold handleStatusChange.
    destruct (find_by_id jobs job Hin) as (first & -> & _ & _).
    cbn [window jobStatuses toasts].
    destruct (StatusMoreFacts.saveJobStatus_cases ls (Data.id job) newStatus
                (Data.title first) (Data.company first) now)
      as (ls' & -> & Hself & _).
    split_and!; [done|done| |].
    + unfold getJobStatus. by rewrite Hself.
    + unfold showToast. rewrite length_app. simpl. lia.
Qed.

Lemma handleStatusChange_known_or_ignored_witness :
  handleStatusChange Samples.jobs "job-404" Rejected
    "2026-01-06T09:00:00.000Z" "1767690000000" Samples.syncedPage
  = Samples.syncedPage.
Proof.
  apply (proj1 (handleStatusChange_known_or_ignored Samples.jobs "job-404"
                  Rejected "2026-01-06T09:00:00.000Z" "1767690000000"
                  Samples.trackedStorage {[ "job-1"%string := Applied ]} [])).
  intros job Hin.
  repeat (apply elem_of_cons in Hin as [->|Hin]; [discriminate|]).
  by apply elem_of_nil in Hin.
Defined.

(** Picking a status on a card, on a page whose statuses agree with the
    storage: picking the status the card shows changes nothing (so the card
    never stores "Not Applied" for a job without a stored status); picking
    another one stores it, the card then shows it, the page still agrees
    with the storage, and the history gets its entry, with the title and
    the company of the first job of the table that has this id, unless
    the new status is "Not Applied".  The menu closes either way. *)
Theorem handleStatusSelect_through_page (jobs : list Data.Job) (job : Data.Job)
    (newStatus : JobStatus) (now stamp : string) ls (shown : list Toast) :
  job ∈ jobs →
  let page := {| window := Some ls;
                 jobStatuses := loadJobStatuses (Some ls);
                 toasts := shown |} in
  let status := displayedStatus (jobStatuses page) job in
  let result :=
    handleStatusSelect
      (Some (λ jobId s, handleStatusChange jobs jobId s now stamp))
      job status newStatus page in
  result.2 = false
  ∧ (newStatus = status → result.1 = page)
  ∧ (newStatus ≠ status →
       displayedStatus (jobStatuses result.1) job = newStatus
       ∧ jobStatuses result.1 = loadJobStatuses (window result.1)
       ∧ ∃ first, first ∈ jobs ∧ Data.id first = Data.id job
           ∧ loadStatusHistory (window result.1) =
             if decide (newStatus = NotApplied)
             then loadStatusHistory (Some ls)
             else take 20
                    ({| jobId := Data.id job; jobTitle := Data.title first;
                        company := Data.company first; status := newStatus;
                        changedAt := now |} :: loadStatusHistory (Some ls))).
Proof.
  intros Hin. cbv zeta. unfold handleStatusSelect. cbn [fst snd jobStatuses].
  split; [done|]. split.
  - intros Heq. by rewrite decide_False by auto.
  - intros Hne. rewrite decide_True by done.
    unfold handleStatusChange.
    destruct (find_by_id jobs job Hin) as (first & -> & Hfirst & Hid).
    cbn [window jobStatuses toasts].
    assert (loadJobStatuses (Some ls) !! Data.id job ≠ Some newStatus) as Hdiff.
    { intros Hs. apply Hne. unfold displayedStatus. by rewrite Hs. }
    destruct (decide (newStatus = NotApplied)) as [->|Hd].
    + rewrite saveJobStatus_default by done.
      rewrite loadJobStatuses_stringified. split_and!; [|done|].
      * unfold displayedStatus. by rewrite lookup_insert_eq.
      * exists first. by split_and!.
    + rewrite saveJobStatus_changed by done.
      rewrite loadJobStatuses_stringified, loadStatusHistory_stringified.
      split_and!; [|done|].
      * unfold displayedStatus. by rewrite lookup_insert_eq.
      * exists first. by split_and!.
Qed.

Lemma handleStatusSelect_through_page_witness :
  (handleStatusSelect
     (Some (λ jobId s,
              handleStatusChange Samples.jobs jobId s
                "2026-01-06T09:00:00.000Z" "1767690000000"))
     Samples.frontendJob
     (displayedStatus (loadJobStatuses (Some Samples.trackedStorage))
        Samples.frontendJob)
     NotApplied
     {| window := Some Samples.trackedStorage;
        jobStatuses := loadJobStatuses (Some Samples.trackedStorage);
        toasts := [] |}).1
  = {| window := Some Samples.trackedStorage;
       jobStatuses := loadJobStatuses (Some Samples.trackedStorage);
       toasts := [] |}.
Proof.
  apply (proj1 (proj2 (handleStatusSelect_through_page Samples.jobs
                         Samples.frontendJob NotApplied
                         "2026-01-06T09:00:00.000Z" "1767690000000"
                         Samples.trackedStorage [] ltac:(set_solver)))).
  reflexivity.
Defined.




End StatusUIFacts.

(** ** The test checklist and the ship lock *)

Module ChecklistFacts.
Import JS Checklist.

Lemma filter_length_Permutation {A} (f : A → bool) (l k : list A) :
  l ≡ₚ k → length (List.filter f l) = length (List.filter f k).
Proof.
  induction 1 as [|x l k _ IH|x y l|l1 l2 l3 _ IH1 _ IH2]; simpl.
  - done.
  - destruct (f x); simpl; by rewrite IH.
  - by destruct (f x), (f y).
  - by rewrite IH1.
Qed.

Lemma passedCount_insert_fresh (i : string) (x : bool) (m : gmap string bool) :
  m !! i = None →
  passedCount (<[i := x]> m) = ((if x then 1 else 0) + passedCount m)%nat.
Proof.
  intros Hi. unfold passedCount, Object_values.
  rewrite (filter_length_Permutation _ _ (x :: (map_to_list m).*2)).
  - simpl. by destruct x.
  - by rewrite map_to_list_insert.
Qed.

Lemma passedCount_present (i : string) (y : bool) (m : gmap string bool) :
  m !! i = Some y →
  passedCount m = ((if y then 1 else 0) + passedCount (delete i m))%nat.
Proof.
  intros Hi. rewrite <- (insert_delete_id m i y) at 1 by done.
  apply passedCount_insert_fresh, lookup_delete_eq.
Qed.

(** The count of passed tests is the number of entries that are [true]. *)
Lemma passedCount_size (m : gmap string bool) :
  passedCount m = size (filter (λ kv, kv.2 = true) m).
Proof.
  induction m as [|i x m Hi IH] using map_ind.
  - by rewrite map_filter_empty.
  - rewrite passedCount_insert_fresh, IH by done. destruct x.
    + rewrite map_filter_insert_True by done.
      rewrite map_size_insert_None; [lia|].
      apply map_lookup_filter_None_2. left. exact Hi.
    + rewrite map_filter_insert_not'; [done|simpl; congruence|].
      intros y Hy. congruence.
Qed.

Lemma isChecked_toggle (id other : string) (m : gmap string bool) :
  isChecked (handleToggle id m) other =
  if decide (other = id) then negb (isChecked m id) else isChecked m other.
Proof.
  unfold isChecked, handleToggle. case_decide as Heq.
  - subst. by rewrite lookup_insert_eq.
  - by rewrite lookup_insert_ne.
Qed.

Lemma passedCount_toggle (id : string) (m : gmap string bool) :
  (passedCount (handleToggle id m) + (if isChecked m id then 1 else 0)
   = passedCount m + (if isChecked m id then 0 else 1))%nat.
Proof.
  unfold handleToggle, isChecked. destruct (m !! id) as [y|] eqn:Hid; simpl.
  - rewrite (passedCount_present id y m) by done.
    rewrite <- (insert_delete_eq m id).
    rewrite passedCount_insert_fresh by apply lookup_delete_eq.
    destruct y; simpl; lia.
  - rewrite passedCount_insert_fresh by done. simpl. lia.
Qed.

(** A click on a checkbox flips that item and no other, and moves the count
    of passed tests by exactly one: up when the item was unchecked (or never
    touched), down when it was checked. *)
Theorem handleToggle_counts (id : string) (checkedItems : gmap string bool) :
  isChecked (handleToggle id checkedItems) id = negb (isChecked checkedItems id)
  ∧ (∀ other, other ≠ id →
       isChecked (handleToggle id checkedItems) other =
       isChecked checkedItems other)
  ∧ (isChecked checkedItems id = false →
       passedCount (handleToggle id checkedItems) = S (passedCount checkedItems))
  ∧ (isChecked checkedItems id = true →
       S (passedCount (handleToggle id checkedItems)) = passedCount checkedItems).
Proof.
  pose proof (passedCount_toggle id checkedItems) as Hcount.
  split_and!.
  - rewrite isChecked_toggle. by rewrite decide_True.
  - intros other Hne. rewrite isChecked_toggle. by rewrite decide_False.
  - intros Hc. rewrite Hc in Hcount. lia.
  - intros Hc. rewrite Hc in Hcount. lia.
Qed.

Lemma handleToggle_counts_witness :
  passedCount (handleToggle "match-score" {[ "apply-tab"%string := true ]})
  = S (passedCount {[ "apply-tab"%string := true ]}).
Proof.
  apply (proj1 (proj2 (proj2 (handleToggle_counts "match-score"
                                {[ "apply-tab"%string := true ]})))).
  reflexivity.
Defined.

(** Two clicks on the same checkbox leave every checkbox and the count as
    they were; the stored object is the same too when the item already had
    an entry, and gains an explicit [false] entry otherwise. *)
Theorem handleToggle_twice (id : string) (checkedItems : gmap string bool) :
  (∀ other, isChecked (handleToggle id (handleToggle id checkedItems)) other
            = isChecked checkedItems other)
  ∧ passedCount (handleToggle id (handleToggle id checkedItems))
    = passedCount checkedItems
  ∧ handleToggle id (handleToggle id checkedItems)
    = <[id := isChecked checkedItems id]> checkedItems
  ∧ (is_Some (checkedItems !! id) →
       handleToggle id (handleToggle id checkedItems) = checkedItems).
Proof.
  assert (handleToggle id (handleToggle id checkedItems)
          = <[id := isChecked checkedItems id]> checkedItems) as Heq.
  { unfold handleToggle, isChecked. rewrite lookup_insert_eq. simpl.
    by rewrite insert_insert_eq, negb_involutive. }
  split_and!.
  - intros other. rewrite Heq. unfold isChecked.
    destruct (decide (other = id)) as [->|Hne];
      [by rewrite lookup_insert_eq|by rewrite lookup_insert_ne].
  - pose proof (passedCount_toggle id checkedItems) as H1.
    pose proof (passedCount_toggle id (handleToggle id checkedItems)) as H2.
    rewrite isChecked_toggle, decide_True in H2 by done.
    destruct (isChecked checkedItems id); simpl in *; lia.
  - done.
  - intros [b Hb]. rewrite Heq. apply insert_id.
    unfold isChecked. by rewrite Hb.
Qed.

Lemma handleToggle_twice_witness :
  handleToggle "apply-tab"
    (handleToggle "apply-tab" {[ "apply-tab"%string := true ]})
  = {[ "apply-tab"%string := true ]}.
Proof.
  apply (proj2 (proj2 (proj2 (handleToggle_twice "apply-tab"
                                {[ "apply-tab"%string := true ]})))).
  by eexists.
Defined.

Lemma toggleAll_dom (ids : list string) : ∀ m : gmap string bool,
  dom (toggleAll ids m) = dom m ∪ list_to_set ids.
Proof.
  induction ids as [|id ids IH]; intros m; simpl.
  - set_solver.
  - unfold toggleAll in *. simpl. rewrite IH. unfold handleToggle.
    rewrite dom_insert_L. set_solver.
Qed.

Lemma testItemIds_size : size (list_to_set testItemIds : gset string) = 10%nat.
Proof.
  rewrite size_list_to_set; [done|].
  apply (bool_decide_unpack _). vm_compute. exact I.
Qed.

(** With only test items ticked, all tests count as passed exactly when
    each of the ten items is checked. *)
Lemma allPassed_iff (m : gmap string bool) :
  dom m ⊆ list_to_set testItemIds →
  passedCount m = 10%nat ↔ ∀ id, id ∈ testItemIds → isChecked m id = true.
Proof.
  intros Hdom. rewrite passedCount_size.
  set (P := λ kv : string * bool, kv.2 = true).
  assert (dom (filter P m) ⊆ list_to_set testItemIds) as Hsub.
  { etrans; [apply dom_filter_subseteq|done]. }
  rewrite <- size_dom. split.
  - intros Hsize id Hid.
    assert (dom (filter P m) = list_to_set testItemIds) as Heq.
    { apply set_subseteq_size_eq; [done|]. rewrite testItemIds_size. lia. }
    assert (id ∈ dom (filter P m)) as Hin.
    { rewrite Heq. by apply elem_of_list_to_set. }
    apply elem_of_dom in Hin as [b Hb].
    apply map_lookup_filter_Some in Hb as [Hb Hp].
    unfold isChecked. rewrite Hb. exact Hp.
  - intros Hall. apply Nat.le_antisymm.
    + rewrite <- testItemIds_size. by apply subseteq_size.
    + rewrite <- testItemIds_size. apply subseteq_size.
      intros id Hid%elem_of_list_to_set.
      specialize (Hall id Hid). unfold isChecked in Hall.
      destruct (m !! id) as [b|] eqn:Hb; [|done]. simpl in Hall. subst b.
      apply elem_of_dom. exists true. by apply map_lookup_filter_Some.
Qed.

(** From a reset checklist, after any clicks on the items of the page: the
    page reports all tests passed exactly when each of the ten items is
    checked, the count never exceeds ten, and the ship lock, which reads
    what the page stored, opens exactly when the page reports all passed. *)
Theorem ship_unlocks_when_all_checked (ids : list string) :
  (∀ id, id ∈ ids → id ∈ testItemIds) →
  let checkedItems := toggleAll ids handleReset in
  (allPassed checkedItems = true ↔
     ∀ id, id ∈ testItemIds → isChecked checkedItems id = true)
  ∧ (passedCount checkedItems ≤ 10)%nat
  ∧ allTestsPassed (persistChecklist checkedItems) = allPassed checkedItems.
Proof.
  intros Hids. cbv zeta.
  set (m := toggleAll ids handleReset).
  assert (dom m ⊆ list_to_set testItemIds) as Hdom.
  { unfold m. rewrite toggleAll_dom. unfold handleReset.
    rewrite dom_empty_L. intros id. rewrite elem_of_union.
    intros [Hin|Hin%elem_of_list_to_set]; [set_solver|].
    apply elem_of_list_to_set. by apply Hids. }
  split_and!.
  - unfold allPassed. rewrite bool_decide_eq_true.
    change totalCount with 10%nat. by apply allPassed_iff.
  - rewrite passedCount_size, <- size_dom, <- testItemIds_size.
    apply subseteq_size. etrans; [apply dom_filter_subseteq|done].
  - done.
Qed.

Lemma ship_unlocks_when_all_checked_witness :
  allTestsPassed (persistChecklist (toggleAll testItemIds handleReset))
  = allPassed (toggleAll testItemIds handleReset).
Proof.
  apply (ship_unlocks_when_all_checked testItemIds). auto.
Defined.

(** The reset empties the checklist: nothing is checked, the count is 0,
    the page does not report all passed and the ship lock stays closed; the
    lock is closed too when the stored checklist is missing or does not
    parse. *)
Theorem handleReset_locks :
  (∀ id, isChecked handleReset id = false)
  ∧ passedCount handleReset = 0%nat
  ∧ allPassed handleReset = false
  ∧ allTestsPassed (persistChecklist handleReset) = false
  ∧ allTestsPassed None = false
  ∧ (∀ saved, JSON_parse saved = None → allTestsPassed (Some saved) = false).
Proof.
  split_and!; try done.
  intros saved Hp. unfold allTestsPassed, shipPassedCount. rewrite Hp.
  by destruct (truthy_text saved).
Qed.

Lemma handleReset_locks_witness :
  allTestsPassed (Some (Malformed "{oops")) = false.
Proof.
  apply (proj2 (proj2 (proj2 (proj2 (proj2 handleReset_locks))))).
  reflexivity.
Defined.

End ChecklistFacts.

(** ** More on the dashboard pipeline *)

Module DashboardMoreFacts.
Import JS Data Dashboard SortFacts DashboardFacts.

(** *** Stability of the sort *)

Lemma sort_insert_stable {A} (cmp : A → A → Z) (p : A → bool) (x : A)
    (l : list A) :
  (∀ a b, p a = true → p b = true → cmp a b ≤ 0) →
  List.filter p (sort_insert cmp x l) = List.filter p (x :: l).
Proof.
  intros Hp. induction l as [|y l IH]; [done|].
  cbn [sort_insert]. destruct (Z.leb_spec (cmp x y) 0) as [Hle|Hgt]; [done|].
  cbn [List.filter] in *. rewrite IH.
  destruct (p x) eqn:Hx, (p y) eqn:Hy; try done.
  specialize (Hp x y Hx Hy). lia.
Qed.

Lemma Array_sort_stable {A} (cmp : A → A → Z) (p : A → bool) (l : list A) :
  (∀ a b, p a = true → p b = true → cmp a b ≤ 0) →
  List.filter p (Array_sort cmp l) = List.filter p l.
Proof.
  intros Hp. induction l as [|x l IH]; [done|].
  unfold Array_sort in *. cbn [foldr].
  rewrite sort_insert_stable by done. cbn [List.filter]. by rewrite IH.
Qed.

Lemma Array_sort_all_equal {A} (cmp : A → A → Z) (l : list A) :
  (∀ a b, a ∈ l → b ∈ l → cmp a b ≤ 0) → Array_sort cmp l = l.
Proof.
  induction l as [|x l IH]; intros Hall; [done|].
  unfold Array_sort in *. cbn [foldr]. rewrite IH.
  - destruct l as [|y l]; [done|]. cbn [sort_insert].
    destruct (Z.leb_spec (cmp x y) 0) as [|Hgt]; [done|].
    specialize (Hall x y). rewrite !elem_of_cons in Hall.
    assert (cmp x y ≤ 0) by (apply Hall; auto). lia.
  - intros a b Ha Hb. apply Hall; by right.
Qed.

(** The sorts keep ties in the order of the input: among the jobs posted
    the same number of days ago ("latest", "oldest"), or with the same
    score ("match-score"), the order is the one before the sort.  So
    without any score the "match-score" sort leaves the list as it is. *)
Theorem sortJobs_keeps_ties (l : list ScoredJob) :
  (∀ d, List.filter (λ j : ScoredJob, postedDaysAgo j =? d) (sortJobs "latest" l)
        = List.filter (λ j : ScoredJob, postedDaysAgo j =? d) l)
  ∧ (∀ d, List.filter (λ j : ScoredJob, postedDaysAgo j =? d) (sortJobs "oldest" l)
          = List.filter (λ j : ScoredJob, postedDaysAgo j =? d) l)
  ∧ (∀ s, List.filter (λ j, orZero (matchScore j) =? s) (sortJobs "match-score" l)
          = List.filter (λ j, orZero (matchScore j) =? s) l)
  ∧ (Forall (λ j, matchScore j = None) l → sortJobs "match-score" l = l).
Proof.
  split_and!.
  - intros d. change (sortJobs "latest" l) with (Array_sort byLatest l).
    apply Array_sort_stable. intros a b Ha%Z.eqb_eq Hb%Z.eqb_eq.
    unfold byLatest. lia.
  - intros d. change (sortJobs "oldest" l) with (Array_sort byOldest l).
    apply Array_sort_stable. intros a b Ha%Z.eqb_eq Hb%Z.eqb_eq.
    unfold byOldest. lia.
  - intros s. change (sortJobs "match-score" l) with (Array_sort byMatchScore l).
    apply Array_sort_stable. intros a b Ha%Z.eqb_eq Hb%Z.eqb_eq.
    unfold byMatchScore. lia.
  - intros Hnone. change (sortJobs "match-score" l) with (Array_sort byMatchScore l).
    apply Array_sort_all_equal. intros a b Ha Hb.
    rewrite Forall_forall in Hnone. unfold byMatchScore.
    rewrite (Hnone a Ha), (Hnone b Hb). done.
Qed.

Lemma sortJobs_keeps_ties_witness :
  sortJobs "match-score"
    (jobsWithScores Samples.jobs
       (MatchScoreLib.calculateMatchScore Samples.weights) None)
  = jobsWithScores Samples.jobs
      (MatchScoreLib.calculateMatchScore Samples.weights) None.
Proof.
  apply (proj2 (proj2 (proj2 (sortJobs_keeps_ties _)))).
  repeat constructor.
Defined.

Lemma byMatchScore_sorted (l : list ScoredJob) :
  StronglySorted (λ a b, orZero (matchScore b) ≤ orZero (matchScore a))
                 (Array_sort byMatchScore l).
Proof.
  apply Array_sort_sorted; unfold byMatchScore; intros; lia.
Qed.

(** Each sort key orders the shown jobs as it is named: "latest" by
    [postedDaysAgo] ascending, "oldest" descending, "match-score" by score
    descending, a missing score counting as 0. *)
Theorem filteredJobs_sorted jobs calculateMatchScore showOnlyMatches
    preferences jobStatuses filters :
  StronglySorted newerFirst
    (filteredJobs jobs calculateMatchScore showOnlyMatches preferences
       jobStatuses (withSort "latest" filters))
  ∧ StronglySorted (flip newerFirst)
      (filteredJobs jobs calculateMatchScore showOnlyMatches preferences
         jobStatuses (withSort "oldest" filters))
  ∧ StronglySorted (λ a b, orZero (matchScore b) ≤ orZero (matchScore a))
      (filteredJobs jobs calculateMatchScore showOnlyMatches preferences
         jobStatuses (withSort "match-score" filters)).
Proof.
  unfold filteredJobs. split_and!.
  - apply byLatest_sorted.
  - apply byOldest_sorted.
  - apply byMatchScore_sorted.
Qed.

(** *** What is shown *)

Lemma jobsWithScores_jobs jobs calculateMatchScore preferences :
  job <$> jobsWithScores jobs calculateMatchScore preferences = jobs.
Proof.
  unfold jobsWithScores. destruct preferences;
    rewrite <- list_fmap_compose; apply list_fmap_id.
Qed.

(** The page shows jobs of the table only, each at most as often as the
    table has it, so never more than the table holds; and every shown job
    carries the score the scorer gives it under the preferences (none
    without preferences).  With no control set and the threshold toggle
    off, every job of the table is shown. *)
Theorem filteredJobs_from_table jobs calculateMatchScore showOnlyMatches
    preferences jobStatuses filters :
  let shown :=
    filteredJobs jobs calculateMatchScore showOnlyMatches preferences
      jobStatuses filters in
  job <$> shown ⊆+ jobs
  ∧ (length shown ≤ length jobs)%nat
  ∧ Forall (λ j : ScoredJob,
              matchScore j = (λ p, calculateMatchScore j p) <$> preferences)
           shown
  ∧ (showOnlyMatches = false →
     keyword filters = EmptyString → location filters = EmptyString →
     mode filters = EmptyString → experience filters = EmptyString →
     source filters = EmptyString → status filters = None →
     job <$> shown ≡ₚ jobs).
Proof.
  cbv zeta. unfold filteredJobs.
  assert (job <$> sortJobs (sort filters)
            (applyFilters showOnlyMatches preferences jobStatuses filters
               (jobsWithScores jobs calculateMatchScore preferences)) ⊆+ jobs)
    as Hsub.
  { rewrite sortJobs_Permutation, applyFilters_filter.
    rewrite <- (jobsWithScores_jobs jobs calculateMatchScore preferences) at 2.
    apply sublist_submseteq, fmap_sublist, filter_sublist. }
  split_and!.
  - done.
  - apply submseteq_length in Hsub. by rewrite length_fmap in Hsub.
  - rewrite sortJobs_Permutation, applyFilters_filter.
    apply Forall_forall. intros j [Hj _]%elem_of_filter_bool.
    unfold jobsWithScores in Hj. destruct preferences as [p|];
      apply list_elem_of_fmap in Hj as (j0 & -> & _); done.
  - intros -> Hk Hl Hm He Hs Hst.
    rewrite sortJobs_Permutation.
    unfold applyFilters, scoreStage, keywordStage, locationStage, modeStage,
      experienceStage, sourceStage, statusStage.
    rewrite Hk, Hl, Hm, He, Hs, Hst. cbn.
    by rewrite jobsWithScores_jobs.
Qed.

Lemma filteredJobs_from_table_witness :
  job <$> filteredJobs Samples.jobs
            (MatchScoreLib.calculateMatchScore Samples.weights)
            false None Samples.statuses Samples.noFilters
  ≡ₚ Samples.jobs.
Proof.
  apply (proj2 (proj2 (proj2 (filteredJobs_from_table Samples.jobs
                                (MatchScoreLib.calculateMatchScore Samples.weights)
                                false None Samples.statuses Samples.noFilters))));
    reflexivity.
Defined.


(** *** The keyword search *)






End DashboardMoreFacts.

(** ** More on the digest page *)

Module DigestMoreFacts.
Import JS Data Digest DigestPage SortFacts DigestFacts.

(** *** The day key *)

Lemma chars_app (a b : string) :
  Dashboard.chars (a +:+ b) = Dashboard.chars a ++ Dashboard.chars b.
Proof. induction a as [|c a IH]; [done|]. simpl. by rewrite IH. Qed.

Lemma chars_inj (a b : string) : Dashboard.chars a = Dashboard.chars b → a = b.
Proof.
  revert b. induction a as [|c a IH]; intros [|d b] Heq; try done.
  simpl in Heq. injection Heq as -> Heq. f_equal. by apply IH.
Qed.

Lemma chars_length (a : string) :
  length (Dashboard.chars a) = String.length a.
Proof. induction a as [|c a IH]; [done|]. simpl. by rewrite IH. Qed.

Lemma to_int_nonnil (z : Z) :
  Z.to_int z ≠ Decimal.Pos Decimal.Nil ∧ Z.to_int z ≠ Decimal.Neg Decimal.Nil.
Proof.
  destruct z as [|p|p]; simpl; split; try discriminate;
    intros [= H]; by apply (DecimalPos.Unsigned.to_uint_nonnil p).
Qed.

(** Different integers are written differently. *)
Lemma String_of_inj (x y : Z) : String_of x = String_of y → x = y.
Proof.
  intros Heq. apply DecimalZ.to_int_inj.
  destruct (to_int_nonnil x) as [Hx1 Hx2], (to_int_nonnil y) as [Hy1 Hy2].
  pose proof (NilZero.isi _ Hx1 Hx2) as Hx.
  pose proof (NilZero.isi _ Hy1 Hy2) as Hy.
  unfold String_of in Heq. rewrite Heq in Hx. congruence.
Qed.

Lemma range_Forall (P : Z → Prop) (lo : Z) (n : nat) :
  Forall P ((λ k, lo + Z.of_nat k) <$> seq 0 n) →
  ∀ z, lo ≤ z < lo + Z.of_nat n → P z.
Proof.
  intros H z Hz. rewrite Forall_forall in H. apply H.
  apply list_elem_of_fmap. exists (Z.to_nat (z - lo)). split; [lia|].
  apply elem_of_seq. lia.
Qed.

(** A number from 1 to 31 is padded to two characters that read back as the
    number. *)
Lemma padStart0_two_digits (z : Z) :
  1 ≤ z < 32 →
  String.length (padStart0 2 (String_of z)) = 2%nat
  ∧ parseInt (padStart0 2 (String_of z)) = z.
Proof.
  apply (range_Forall
           (λ z, String.length (padStart0 2 (String_of z)) = 2%nat
                 ∧ parseInt (padStart0 2 (String_of z)) = z) 1 31).
  apply (bool_decide_unpack _). vm_compute. exact I.
Qed.

Lemma getTodayKey_inj (d1 d2 : Date) :
  validDay d1 → validDay d2 → getTodayKey d1 = getTodayKey d2 → sameDay d1 d2.
Proof.
  intros [Hm1 Hd1] [Hm2 Hd2] Hkey.
  destruct (padStart0_two_digits (getMonth d1 + 1)) as [Lm1 Pm1]; [lia|].
  destruct (padStart0_two_digits (getMonth d2 + 1)) as [Lm2 Pm2]; [lia|].
  destruct (padStart0_two_digits (getDate d1)) as [Ld1 Pd1]; [lia|].
  destruct (padStart0_two_digits (getDate d2)) as [Ld2 Pd2]; [lia|].
  unfold getTodayKey in Hkey. apply (f_equal Dashboard.chars) in Hkey.
  rewrite !chars_app in Hkey.
  apply app_inv_head in Hkey.
  apply app_inj_2 in Hkey as [Hy Hrest].
  2:{ rewrite !length_app, !chars_length. simpl. lia. }
  apply chars_inj, String_of_inj in Hy.
  simpl in Hrest. injection Hrest as Hrest.
  apply app_inj_1 in Hrest as [Hm Hrest].
  2:{ rewrite !chars_length. lia. }
  apply chars_inj in Hm. simpl in Hrest. injection Hrest as Hd.
  apply chars_inj in Hd.
  unfold sameDay. split_and!; [done| |].
  - rewrite Hm in Pm1. lia.
  - rewrite Hd in Pd1. lia.
Qed.

(** Each calendar day has its own key: two clock readings get the same key
    exactly when they fall on the same day.  So generating a digest leaves
    the record of every other day untouched. *)
Theorem getTodayKey_one_per_day (d1 d2 : Date) :
  validDay d1 → validDay d2 →
  (getTodayKey d1 = getTodayKey d2 ↔ sameDay d1 d2)
  ∧ (¬ sameDay d1 d2 →
     ∀ jobs calculateMatchScore preferences today page,
       localStorage
         (handleGenerateDigest jobs calculateMatchScore preferences today d2 page)
         !! getTodayKey d1
       = localStorage page !! getTodayKey d1).
Proof.
  intros Hv1 Hv2. split.
  - split; [by apply getTodayKey_inj|apply getTodayKey_sameDay].
  - intros Hday jobs score preferences today page.
    unfold handleGenerateDigest. cbn [localStorage].
    apply lookup_insert_ne. intros Hkey. apply Hday.
    by apply getTodayKey_inj.
Qed.

Lemma getTodayKey_one_per_day_witness :
  getTodayKey Samples.morning = getTodayKey Samples.evening
  ↔ sameDay Samples.morning Samples.evening.
Proof.
  apply (getTodayKey_one_per_day Samples.morning Samples.evening);
    vm_compute; intuition discriminate.
Defined.

(** *** Coming back to the page *)

(** A digest persists for the day: opening the page again on the day a
    digest was generated shows that digest.  When the record of the day does
    not parse the page shows none, when there is no record the page keeps
    what it shows, and opening the page never writes to the storage. *)
Theorem loadExistingDigest_after_generate jobs calculateMatchScore preferences
    today keyDay keyDay' page :
  sameDay keyDay keyDay' →
  let stored :=
    localStorage
      (handleGenerateDigest jobs calculateMatchScore preferences today keyDay
         page) in
  digest (loadExistingDigest keyDay'
            {| localStorage := stored; digest := None; isGenerating := false |})
  = Some (generateDigest jobs calculateMatchScore preferences today)
  ∧ (∀ page', localStorage (loadExistingDigest keyDay' page') = localStorage page')
  ∧ (∀ page' raw,
       localStorage page' !! getTodayKey keyDay' = Some raw →
       JSON_parse raw = None →
       digest (loadExistingDigest keyDay' page') = None
       ∨ loadExistingDigest keyDay' page' = page')
  ∧ (∀ page', localStorage page' !! getTodayKey keyDay' = None →
       loadExistingDigest keyDay' page' = page').
Proof.
  intros Hday. cbv zeta. split_and!.
  - unfold loadExistingDigest, handleGenerateDigest. cbn [localStorage].
    rewrite (getTodayKey_sameDay _ _ Hday), lookup_insert_eq. done.
  - intros page'. unfold loadExistingDigest.
    destruct (localStorage page' !! _) as [raw|]; [|done].
    destruct (truthy_text raw); [|done]. by destruct (JSON_parse raw).
  - intros page' raw Hraw Hp. unfold loadExistingDigest. rewrite Hraw, Hp.
    destruct (truthy_text raw); auto.
  - intros page' Hnone. unfold loadExistingDigest. by rewrite Hnone.
Qed.

Lemma loadExistingDigest_after_generate_witness :
  digest
    (loadExistingDigest Samples.evening
       {| localStorage :=
            localStorage
              (handleGenerateDigest Samples.jobs
                 (MatchScoreLib.calculateMatchScore Samples.weights)
                 (Some Samples.backendPreferences) Samples.morning
                 Samples.morning Samples.emptyPage);
          digest := None; isGenerating := false |})
  = Some (generateDigest Samples.jobs
            (MatchScoreLib.calculateMatchScore Samples.weights)
            (Some Samples.backendPreferences) Samples.morning).
Proof.
  apply (loadExistingDigest_after_generate Samples.jobs
           (MatchScoreLib.calculateMatchScore Samples.weights)
           (Some Samples.backendPreferences) Samples.morning Samples.morning
           Samples.evening Samples.emptyPage).
  repeat split.
Defined.

End DigestMoreFacts.

(** ** Matches and the text of a digest *)

Module DigestTextFacts.
Import JS Data Digest DigestPage SortFacts DigestFacts.

Lemma elem_of_jobsWithScores jobs calculateMatchScore preferences
    (dj : DigestJob) :
  dj ∈ jobsWithScores jobs calculateMatchScore preferences ↔
  ∃ j, j ∈ jobs
       ∧ dj = {| job := j;
                 matchScore := match preferences with
                               | Some p => calculateMatchScore j p
                               | None => 0
                               end |}.
Proof.
  unfold jobsWithScores. rewrite list_elem_of_fmap. split.
  - intros (j & -> & Hj). eauto.
  - intros (j & Hj & ->). eauto.
Qed.

(** The first job of a ranking has the highest score. *)
Lemma ranking_head_max (x : DigestJob) (rest : list DigestJob) (y : DigestJob) :
  StronglySorted ranksBefore (x :: rest) → y ∈ x :: rest →
  matchScore y ≤ matchScore x.
Proof.
  intros Hs Hy. apply StronglySorted_cons in Hs as [Hx _].
  apply elem_of_cons in Hy as [->|Hy]; [lia|].
  rewrite Forall_forall in Hx. specialize (Hx y Hy).
  unfold ranksBefore in Hx. lia.
Qed.

(** The page treats a digest as having matches exactly when some job of the
    whole table scores above 0 under the preferences, although it looks at
    the ten listed jobs only; a digest generated without preferences never
    has matches, and neither has a missing digest. *)
Theorem hasMatches_generated jobs calculateMatchScore preferences today :
  (hasMatches (Some (generateDigest jobs calculateMatchScore preferences today))
   = true ↔
   ∃ j p, j ∈ jobs ∧ preferences = Some p ∧ 0 < calculateMatchScore j p)
  ∧ (preferences = None →
     hasMatches (Some (generateDigest jobs calculateMatchScore preferences today))
     = false)
  ∧ hasMatches None = false.
Proof.
  assert (hasMatches (Some (generateDigest jobs calculateMatchScore preferences
                              today)) = true ↔
          ∃ j p, j ∈ jobs ∧ preferences = Some p ∧ 0 < calculateMatchScore j p)
    as Hiff.
  { unfold hasMatches. rewrite generateDigest_jobs, existsb_exists.
    set (sorted := Array_sort digestOrder
                     (jobsWithScores jobs calculateMatchScore preferences)).
    split.
    - intros (dj & Hin%list_elem_of_In & Hpos%Z.ltb_lt).
      apply (elem_of_submseteq _ sorted) in Hin; [|apply submseteq_take].
      unfold sorted in Hin. rewrite Array_sort_elem_of in Hin.
      apply elem_of_jobsWithScores in Hin as (j & Hj & ->).
      cbn [matchScore] in Hpos. destruct preferences as [p|]; [eauto|lia].
    - intros (j & p & Hj & -> & Hpos).
      set (dj := {| job := j; matchScore := calculateMatchScore j p |}).
      assert (dj ∈ sorted) as Hdj.
      { unfold sorted. rewrite Array_sort_elem_of.
        apply elem_of_jobsWithScores. eauto. }
      pose proof (digestOrder_sorted
                    (jobsWithScores jobs calculateMatchScore (Some p))) as Hs.
      fold sorted in Hs. destruct sorted as [|x rest]; [by apply elem_of_nil in Hdj|].
      exists x. split; [by left|]. apply Z.ltb_lt.
      pose proof (ranking_head_max x rest dj Hs Hdj) as Hmax.
      cbn [matchScore dj] in Hmax. unfold dj in Hmax. cbn [matchScore] in Hmax.
      lia. }
  split_and!; [done| |done].
  intros ->. apply not_true_is_false. rewrite Hiff.
  by intros (j & p & _ & ? & _).
Qed.

Lemma hasMatches_generated_witness :
  hasMatches
    (Some (generateDigest Samples.jobs
             (MatchScoreLib.calculateMatchScore Samples.weights) None
             Samples.morning))
  = false.
Proof.
  apply (proj1 (proj2 (hasMatches_generated Samples.jobs
                         (MatchScoreLib.calculateMatchScore Samples.weights)
                         None Samples.morning))).
  reflexivity.
Defined.

(** *** The text *)

Lemma foldl_jobLines (l : list DigestJob) : ∀ (g : nat → nat) (acc : list string),
  foldl (λ lines '(index, job), lines ++ jobLines index job) acc
        (imap (λ index job, (g index, job)) l)
  = acc ++ mjoin (imap (λ index job, jobLines (g index) job) l).
Proof.
  induction l as [|x l IH]; intros g acc; cbn [imap foldl mjoin].
  - by rewrite app_nil_r.
  - rewrite (IH (g ∘ S)). cbn. by rewrite <- (assoc_L (++)).
Qed.

Lemma blocks_length {A B} (n : nat) (l : list A) : ∀ h : nat → A → list B,
  (∀ i x, length (h i x) = n) →
  length (mjoin (imap h l)) = (n * length l)%nat.
Proof.
  induction l as [|x l IH]; intros h Hn; [cbn; lia|].
  change (mjoin (imap h (x :: l))) with (h 0%nat x ++ mjoin (imap (h ∘ S) l)).
  rewrite length_app. rewrite (IH (h ∘ S)) by (intros; apply Hn).
  rewrite Hn. cbn [length]. lia.
Qed.

Lemma blocks_lookup {A B} (n : nat) (l : list A) :
  ∀ (h : nat → A → list B) (k : nat) (x : A),
  (∀ i y, length (h i y) = n) → l !! k = Some x →
  take n (drop (n * k) (mjoin (imap h l))) = h k x.
Proof.
  induction l as [|y l IH]; intros h k x Hn Hk; [done|].
  change (mjoin (imap h (y :: l))) with (h 0%nat y ++ mjoin (imap (h ∘ S) l)).
  destruct k as [|k]; simpl in Hk.
  - injection Hk as ->. rewrite Nat.mul_0_r, drop_0.
    by rewrite take_app_length'.
  - replace (n * S k)%nat with (n + n * k)%nat by lia.
    rewrite drop_app_add' by (by rewrite Hn).
    apply (IH (h ∘ S)); [|done]. intros; apply Hn.
Qed.

Lemma formatDigestLines_parts (displayDate : string) (digest : DigestData) :
  formatDigestLines displayDate digest =
  [ "Top 10 Jobs For You — 9AM Digest"; "Date: " +:+ displayDate; "";
    "---"; "" ]%string
  ++ mjoin (imap jobLines (jobs digest))
  ++ [ "---"; ""; "This digest was generated based on your preferences." ]%string.
Proof.
  unfold formatDigestLines. cbv zeta.
  rewrite (foldl_jobLines (jobs digest) (λ i, i)).
  by rewrite <- !(assoc_L (++)).
Qed.

(** The text of a digest lists its jobs in the order of the digest: after
    five heading lines each job takes seven lines, the first of which is
    its rank, counted from 1, and its title; three closing lines follow the
    last job.  A digest of [n] jobs thus gives [8 + 7 n] lines. *)
Theorem formatDigestLines_layout (displayDate : string) (digest : DigestData) :
  let lines := formatDigestLines displayDate digest in
  length lines = (8 + 7 * length (jobs digest))%nat
  ∧ take 5 lines =
      [ "Top 10 Jobs For You — 9AM Digest"; "Date: " +:+ displayDate; "";
        "---"; "" ]%string
  ∧ (∀ k job, jobs digest !! k = Some job →
       take 7 (drop (5 + 7 * k) lines) = jobLines k job
       ∧ lines !! (5 + 7 * k)%nat =
           Some (String_of (Z.of_nat k + 1) +:+ ". " +:+ title job))
  ∧ drop (5 + 7 * length (jobs digest)) lines =
      [ "---"; ""; "This digest was generated based on your preferences." ]%string
  ∧ formatDigestAsText displayDate digest = String.concat LF lines.
Proof.
  cbv zeta. rewrite formatDigestLines_parts.
  set (blocks := mjoin (imap jobLines (jobs digest))).
  assert (length blocks = (7 * length (jobs digest))%nat) as Hlen
    by (by apply blocks_length).
  assert (∀ k job, jobs digest !! k = Some job →
            take 7 (drop (5 + 7 * k) (
              [ "Top 10 Jobs For You — 9AM Digest"; "Date: " +:+ displayDate;
                ""; "---"; "" ]%string ++ blocks ++
              [ "---"; "";
                "This digest was generated based on your preferences." ]%string))
            = jobLines k job) as Hblock.
  { intros k job Hk.
    rewrite (drop_app_add' _ _ 5) by done.
    pose proof (lookup_lt_Some _ _ _ Hk) as Hlt.
    rewrite drop_app_le by lia.
    rewrite take_app_le by (rewrite length_drop; lia).
    by apply blocks_lookup. }
  split_and!.
  - rewrite !length_app, Hlen. simpl. lia.
  - done.
  - intros k job Hk. split; [by apply Hblock|].
    specialize (Hblock k job Hk).
    apply (f_equal (λ l, l !! 0%nat)) in Hblock.
    rewrite lookup_take_lt, lookup_drop, Nat.add_0_r in Hblock by lia.
    by rewrite Hblock.
  - rewrite (drop_app_add' _ _ 5) by done.
    by rewrite drop_app_length' by done.
  - unfold formatDigestAsText. by rewrite formatDigestLines_parts.
Qed.

Lemma formatDigestLines_layout_witness :
  take 7 (drop 5
    (formatDigestLines "Monday, January 5, 2026"
       (generateDigest Samples.jobs
          (MatchScoreLib.calculateMatchScore Samples.weights)
          (Some Samples.backendPreferences) Samples.morning)))
  = jobLines 0 {| job := Samples.backendJob; matchScore := 40 |}.
Proof.
  apply (proj1 (proj2 (proj2 (formatDigestLines_layout
                                "Monday, January 5, 2026"
                                (generateDigest Samples.jobs
                                   (MatchScoreLib.calculateMatchScore
                                      Samples.weights)
                                   (Some Samples.backendPreferences)
                                   Samples.morning))))
           0%nat {| job := Samples.backendJob; matchScore := 40 |}).
  vm_compute. reflexivity.
Defined.

End DigestTextFacts.

(** ** Recent status updates *)

Module RecentUpdatesFacts.
Import JS JobStatusLib RecentUpdates.

(** The recent updates are the entries of the stored history whose date is
    valid and not before the cutoff, the cutoff itself included, in the
    order of the history; an entry whose date does not parse is left out,
    and nothing is returned when the stored history does not parse.  A
    change that [saveJobStatus] has just recorded comes first among the
    recent updates, provided its time stamp reads as a date not before the
    cutoff. *)
Theorem getRecentStatusUpdates_window (Date_parse : string → option Z)
    (Date_minusDays : Z → Z → Z) (window : Window) (now days : Z) :
  let recent :=
    getRecentStatusUpdates Date_parse Date_minusDays window now days in
  recent `sublist_of` loadStatusHistory window
  ∧ (∀ entry, entry ∈ recent ↔
       entry ∈ loadStatusHistory window
       ∧ ∃ t, Date_parse (changedAt entry) = Some t
              ∧ Date_minusDays now days ≤ t)
  ∧ (∀ ls saved, window = Some ls →
       jobTrackerStatusHistory ls = Some saved → JSON_parse saved = None →
       recent = [])
  ∧ (∀ ls jobId status jobTitle company stamp t,
       window = Some ls →
       loadJobStatuses window !! jobId ≠ Some status → status ≠ NotApplied →
       Date_parse stamp = Some t → Date_minusDays now days ≤ t →
       getRecentStatusUpdates Date_parse Date_minusDays
         (saveJobStatus window jobId status jobTitle company stamp) now days
       = {| jobId := jobId; jobTitle := jobTitle; company := company;
            status := status; changedAt := stamp |}
         :: List.filter (notBefore Date_parse (Date_minusDays now days))
              (take 19 (loadStatusHistory window))).
Proof.
  cbv zeta. unfold getRecentStatusUpdates. split_and!.
  4:{ intros ls jobId status jobTitle company stamp t -> Hdiff Hd Hparse Hle.
      rewrite JobStatusFacts.saveJobStatus_changed by done.
      rewrite JobStatusFacts.loadStatusHistory_stringified.
      cbn [take List.filter]. unfold notBefore at 1. cbn [changedAt].
      rewrite Hparse. by rewrite (proj2 (Z.leb_le _ _) Hle). }
  - apply DashboardFacts.filter_sublist.
  - intros entry. rewrite DashboardFacts.elem_of_filter_bool.
    unfold notBefore. destruct (Date_parse (changedAt entry)) as [t|].
    + rewrite Z.leb_le. split.
      * intros [? ?]. eauto.
      * intros [? (t' & [= <-] & ?)]. done.
    + split; [by intros [_ ?]|]. by intros [_ (t & ? & _)].
  - intros ls saved -> Hs Hp.
    cbn [loadStatusHistory]. rewrite Hs, Hp. by destruct (truthy_text saved).
Qed.

Lemma getRecentStatusUpdates_window_witness :
  getRecentStatusUpdates (λ s, Some (parseInt s)) (λ t days, t - days * 86400000)
    (Some Samples.corruptStorage) 1767690000000 defaultDays
  = []
  ∧ length
      (getRecentStatusUpdates (λ s, Some (parseInt s))
         (λ t days, t - days * 86400000)
         (saveJobStatus (Some Samples.freshStorage) "job-1" Applied
            "Backend Engineer" "Acme" "1767600000000")
         1767690000000 defaultDays) = 1%nat.
Proof.
  pose proof (getRecentStatusUpdates_window (λ s, Some (parseInt s))
                (λ t days, t - days * 86400000)
                (Some Samples.corruptStorage) 1767690000000 defaultDays)
    as (_ & _ & Hbad & _).
  pose proof (getRecentStatusUpdates_window (λ s, Some (parseInt s))
                (λ t days, t - days * 86400000)
                (Some Samples.freshStorage) 1767690000000 defaultDays)
    as (_ & _ & _ & Hnew).
  split.
  - apply (Hbad Samples.corruptStorage (Malformed "[oops")); reflexivity.
  - rewrite (Hnew Samples.freshStorage "job-1" Applied "Backend Engineer"
               "Acme" "1767600000000" 1767600000000);
      [reflexivity|reflexivity|discriminate|discriminate|reflexivity|].
    vm_compute. discriminate.
Defined.

End RecentUpdatesFacts.

(** ** The threshold toggle and the status filter *)

Module DashboardFilterFacts.
Import JS Data Dashboard SortFacts DashboardFacts.

Lemma elem_of_filteredJobs jobs calculateMatchScore showOnlyMatches
    preferences jobStatuses filters (j : ScoredJob) :
  j ∈ filteredJobs jobs calculateMatchScore showOnlyMatches preferences
        jobStatuses filters ↔
  j ∈ jobsWithScores jobs calculateMatchScore preferences
  ∧ passesActiveFilters showOnlyMatches preferences jobStatuses filters j = true.
Proof.
  unfold filteredJobs.
  by rewrite elem_of_sortJobs, applyFilters_filter, elem_of_filter_bool.
Qed.

Lemma passes_with_toggle p jobStatuses filters (j : ScoredJob) :
  passesActiveFilters true (Some p) jobStatuses filters j =
  aboveThreshold (Some p) j
  && passesActiveFilters false (Some p) jobStatuses filters j.
Proof.
  unfold passesActiveFilters. rewrite bool_decide_eq_true_2 by eauto.
  cbn [andb]. by destruct (aboveThreshold (Some p) j).
Qed.

(** With the toggle on and preferences set, every shown job has a score,
    the one the scorer gives it, and that score is at least the threshold of
    the preferences; the jobs shown are those shown with the toggle off
    that reach the threshold.  Without preferences the toggle changes
    nothing (the fallback threshold of 40 is never applied). *)
Theorem threshold_toggle jobs calculateMatchScore preferences jobStatuses
    filters :
  (∀ p (j : ScoredJob),
     preferences = Some p →
     (j ∈ filteredJobs jobs calculateMatchScore true preferences jobStatuses
            filters ↔
      j ∈ filteredJobs jobs calculateMatchScore false preferences jobStatuses
            filters
      ∧ matchScore j = Some (calculateMatchScore j p)
      ∧ MatchScoreLib.minMatchScore p ≤ calculateMatchScore j p))
  ∧ (preferences = None →
     filteredJobs jobs calculateMatchScore true preferences jobStatuses filters
     = filteredJobs jobs calculateMatchScore false preferences jobStatuses
         filters).
Proof.
  split.
  - intros p j ->. rewrite !elem_of_filteredJobs, passes_with_toggle.
    rewrite andb_true_iff. unfold aboveThreshold. cbn [minMatchScore].
    split.
    + intros (Hj & Hs & Hrest).
      assert (matchScore j = Some (calculateMatchScore j p)) as Hscore.
      { unfold jobsWithScores in Hj.
        apply list_elem_of_fmap in Hj as (j0 & -> & _). done. }
      rewrite Hscore in Hs. apply Z.leb_le in Hs. cbn in Hs. done.
    + intros ((Hj & Hrest) & Hscore & Hle).
      split_and!; [done| |done]. rewrite Hscore. by apply Z.leb_le.
  - intros ->. unfold filteredJobs, applyFilters, scoreStage.
    by rewrite bool_decide_eq_false_2 by (by intros [? ?]).
Qed.

Lemma threshold_toggle_witness :
  filteredJobs Samples.jobs (MatchScoreLib.calculateMatchScore Samples.weights)
    true None Samples.statuses Samples.noFilters
  = filteredJobs Samples.jobs (MatchScoreLib.calculateMatchScore Samples.weights)
      false None Samples.statuses Samples.noFilters.
Proof.
  apply (proj2 (threshold_toggle Samples.jobs
                  (MatchScoreLib.calculateMatchScore Samples.weights)
                  None Samples.statuses Samples.noFilters)).
  reflexivity.
Defined.

Lemma statusStage_ext (statuses statuses' : gmap string JobStatus)
    (filters : Filters) (l : list ScoredJob) :
  (∀ j : ScoredJob, j ∈ l →
     default NotApplied (statuses !! id j) = default NotApplied (statuses' !! id j)) →
  statusStage statuses filters l = statusStage statuses' filters l.
Proof.
  intros Hsame. unfold statusStage. destruct (status filters) as [wanted|]; [|done].
  apply filter_ext_in. intros j Hj%list_elem_of_In.
  unfold inStatus. by rewrite (Hsame j).
Qed.

(** The status filter sees a job through the status its card shows: it keeps
    the jobs whose shown status is the wanted one, a job without a stored
    status counting as "Not Applied".  Two status maps that show the same
    status for each job give the same list; so the explicit "Not Applied"
    entry that [saveJobStatus] writes for a job without a stored status
    makes no difference to the filter. *)
Theorem statusStage_by_shown_status (statuses : gmap string JobStatus)
    (filters : Filters) (l : list ScoredJob) :
  (∀ wanted (j : ScoredJob), status filters = Some wanted →
     (j ∈ statusStage statuses filters l ↔
      j ∈ l ∧ StatusUI.displayedStatus statuses j = wanted))
  ∧ (∀ statuses' : gmap string JobStatus,
       (∀ j : ScoredJob, j ∈ l →
          StatusUI.displayedStatus statuses j
          = StatusUI.displayedStatus statuses' j) →
       statusStage statuses filters l = statusStage statuses' filters l)
  ∧ (∀ ls jobId jobTitle company now,
       JobStatusLib.loadJobStatuses (Some ls) !! jobId = None →
       statusStage
         (JobStatusLib.loadJobStatuses
            (JobStatusLib.saveJobStatus (Some ls) jobId NotApplied jobTitle
               company now)) filters l
       = statusStage (JobStatusLib.loadJobStatuses (Some ls)) filters l).
Proof.
  split_and!.
  - intros wanted j Hw. unfold statusStage. rewrite Hw.
    rewrite elem_of_filter_bool. unfold inStatus, StatusUI.displayedStatus.
    by rewrite bool_decide_eq_true.
  - intros statuses' Hsame. by apply statusStage_ext.
  - intros ls jobId jobTitle company now Hnone.
    rewrite JobStatusFacts.saveJobStatus_default by (rewrite Hnone; discriminate).
    rewrite JobStatusFacts.loadJobStatuses_stringified.
    apply statusStage_ext. intros j _.
    destruct (decide (id j = jobId)) as [<-|Hne].
    + by rewrite lookup_insert_eq, Hnone.
    + by rewrite lookup_insert_ne.
Qed.

Lemma statusStage_by_shown_status_witness :
  statusStage
    (JobStatusLib.loadJobStatuses
       (JobStatusLib.saveJobStatus (Some Samples.trackedStorage) "job-2"
          NotApplied "Frontend Developer" "Globex" "2026-01-06T09:00:00.000Z"))
    Samples.puneFilters
    (jobsWithScores Samples.jobs
       (MatchScoreLib.calculateMatchScore Samples.weights) None)
  = statusStage (JobStatusLib.loadJobStatuses (Some Samples.trackedStorage))
      Samples.puneFilters
      (jobsWithScores Samples.jobs
         (MatchScoreLib.calculateMatchScore Samples.weights) None).
Proof.
  apply (proj2 (proj2 (statusStage_by_shown_status
                         (JobStatusLib.loadJobStatuses
                            (Some Samples.trackedStorage))
                         Samples.puneFilters _))).
  reflexivity.
Defined.

End DashboardFilterFacts.
